(** * splose-clone-be: the session lifecycle and the attachment upload saga

    A shallow embedding of the authentication core (pkg/auth, the user
    repository, the user service, the Authenticate middleware, the auth
    handler) and of the attachment upload saga (pkg/storage, the attachment
    repository, AttachmentService.Create), followed by the properties the
    specification states about them.

    Conventions.
    - A Go package is a Module; a function keeps its Go name.
    - A Go result made of a pointer to T and an error is a pair
      [option T * option error]: either side can be nil, and dereferencing a
      nil pointer panics.
    - Code that talks to the database, the object store, the clock or the
      random source runs in the monad [M] over a [World]; a call that the
      outside world may refuse takes its outcome from the fault schedule of
      the world.
    - zap logging has no influence on control flow and is left out. *)

From Stdlib Require Import ZArith String Ascii List Bool Lia.
From Stdlib Require Import DecimalString DecimalZ.
From stdpp Require Import base option list strings gmap.
Import ListNotations.

Local Open Scope string_scope.
Local Open Scope list_scope.
Local Open Scope Z_scope.

(* ===================================================================== *)
(** ** Go errors *)
(* ===================================================================== *)

Module errors.

(** The package-level error values ([errors.New] at package scope) that the
    modelled code creates or tests for.  Go compares them by identity:
    [gorm.ErrRecordNotFound] and [repositories.ErrNotFound] carry the same
    text and are different errors. *)
Inductive sentinel : Type :=
| gorm_ErrRecordNotFound
| jwt_ErrTokenMalformed
| jwt_ErrTokenUnverifiable
| jwt_ErrTokenSignatureInvalid
| jwt_ErrTokenInvalidClaims
| jwt_ErrTokenExpired
| jwt_ErrTokenNotValidYet
| auth_ErrTokenExpired
| auth_ErrTokenInvalid
| repositories_ErrNotFound
| repositories_ErrDuplicateKey
| services_ErrEmailTaken
| services_ErrInvalidCredentials
| services_ErrInvalidRefreshToken.

Definition sentinel_eqb (a b : sentinel) : bool :=
  match a, b with
  | gorm_ErrRecordNotFound, gorm_ErrRecordNotFound
  | jwt_ErrTokenMalformed, jwt_ErrTokenMalformed
  | jwt_ErrTokenUnverifiable, jwt_ErrTokenUnverifiable
  | jwt_ErrTokenSignatureInvalid, jwt_ErrTokenSignatureInvalid
  | jwt_ErrTokenInvalidClaims, jwt_ErrTokenInvalidClaims
  | jwt_ErrTokenExpired, jwt_ErrTokenExpired
  | jwt_ErrTokenNotValidYet, jwt_ErrTokenNotValidYet
  | auth_ErrTokenExpired, auth_ErrTokenExpired
  | auth_ErrTokenInvalid, auth_ErrTokenInvalid
  | repositories_ErrNotFound, repositories_ErrNotFound
  | repositories_ErrDuplicateKey, repositories_ErrDuplicateKey
  | services_ErrEmailTaken, services_ErrEmailTaken
  | services_ErrInvalidCredentials, services_ErrInvalidCredentials
  | services_ErrInvalidRefreshToken, services_ErrInvalidRefreshToken => true
  | _, _ => false
  end.

(** An error value: a sentinel, an error produced by an outside system
    (database driver, AWS SDK, bcrypt), [fmt.Errorf("prefix: %w", inner)],
    or an error that wraps two others (jwt's [newError], [errors.Join]). *)
Inductive error : Type :=
| Sentinel (s : sentinel)
| External (msg : string)
| Wrapf (prefix : string) (inner : error)
| Multi (e1 e2 : error).

(** [errors.Is(err, target)] for a sentinel target. *)
Fixpoint Is (err : error) (target : sentinel) : bool :=
  match err with
  | Sentinel s => sentinel_eqb s target
  | External _ => false
  | Wrapf _ inner => Is inner target
  | Multi e1 e2 => Is e1 target || Is e2 target
  end.

(** [err == target], the comparison a Go [switch err] performs. *)
Definition same (err : error) (target : sentinel) : bool :=
  match err with
  | Sentinel s => sentinel_eqb s target
  | _ => false
  end.

Definition sentinel_text (s : sentinel) : string :=
  match s with
  | gorm_ErrRecordNotFound => "record not found"
  | jwt_ErrTokenMalformed => "token is malformed"
  | jwt_ErrTokenUnverifiable => "token is unverifiable"
  | jwt_ErrTokenSignatureInvalid => "token signature is invalid"
  | jwt_ErrTokenInvalidClaims => "token has invalid claims"
  | jwt_ErrTokenExpired => "token is expired"
  | jwt_ErrTokenNotValidYet => "token is not valid yet"
  | auth_ErrTokenExpired => "token has expired"
  | auth_ErrTokenInvalid => "token is invalid"
  | repositories_ErrNotFound => "record not found"
  | repositories_ErrDuplicateKey => "duplicate key"
  | services_ErrEmailTaken => "email already taken"
  | services_ErrInvalidCredentials => "invalid email or password"
  | services_ErrInvalidRefreshToken => "invalid refresh token"
  end.

(** [err.Error()]. *)
Fixpoint Error (err : error) : string :=
  match err with
  | Sentinel s => sentinel_text s
  | External msg => msg
  | Wrapf prefix inner => prefix +:+ ": " +:+ Error inner
  | Multi e1 e2 => Error e1 +:+ ": " +:+ Error e2
  end.

End errors.
Export errors.

(* ===================================================================== *)
(** ** Time *)
(* ===================================================================== *)

Module time.

(** An instant as nanoseconds since the Unix epoch; a [Duration] is a
    number of nanoseconds. *)
Definition Time : Type := Z.
Definition Duration : Type := Z.

Definition Second : Duration := 1000000000.
Definition Millisecond : Duration := 1000000.

Definition Add (t : Time) (d : Duration) : Time := t + d.
Definition Before (t u : Time) : bool := t <? u.
(** [t.Truncate(d)] rounds down to a multiple of [d]. *)
Definition Truncate (t : Time) (d : Duration) : Time := (t / d) * d.
Definition UnixMilli (t : Time) : Z := t / Millisecond.

End time.

(* ===================================================================== *)
(** ** Entities *)
(* ===================================================================== *)

Module entities.

(** [entities.User]; the time stamps, the soft-delete mark and the
    associations, which no modelled function reads, are left out. *)
Record User : Type := {
  ID : string;
  Email : string;
  PasswordHash : string;
  Username : string;
  Role : string
}.

(** The zero value [entities.User{}]. *)
Definition zeroUser : User :=
  {| ID := ""; Email := ""; PasswordHash := ""; Username := ""; Role := "" |}.

Record Attachment : Type := {
  aID : string;
  NoteID : string;
  MessageID : string;
  URL : string;
  Name : string;
  Type_ : string;
  Size : Z;
  S3Key : string
}.

Definition withID (u : User) (id : string) : User :=
  {| ID := id; Email := Email u; PasswordHash := PasswordHash u;
     Username := Username u; Role := Role u |}.

Definition withAttachmentID (a : Attachment) (id : string) : Attachment :=
  {| aID := id; NoteID := NoteID a; MessageID := MessageID a; URL := URL a;
     Name := Name a; Type_ := Type_ a; Size := Size a; S3Key := S3Key a |}.

End entities.

(* ===================================================================== *)
(** ** The world outside the process, and the monad of effects *)
(* ===================================================================== *)

Module runtime.
Import entities.

(** An object held by the bucket. *)
Record Object : Type := {
  Body : string;
  ContentType : string;
  ContentLength : Z
}.

(** A call that leaves the process, with its result where it has one. *)
Inductive Event : Type :=
| EvUserFirst (column value : string) (res : option error)
| EvUserCreate (u : User) (res : option error)
| EvAttachmentCreate (a : Attachment) (res : option error)
| EvBcryptGenerate (password : string)
| EvBcryptCompare (hash password : string)
| EvPutObject (key : string) (res : option error)
| EvDeleteObject (key : string) (res : option error).

(** - [users], [attachments]: the rows of the two tables that queries see,
      that is, the rows that are not soft-deleted;
    - [bucket]: the S3 bucket, by key;
    - [faults]: what the outside world answers to the next database and S3
      calls, oldest first: [None] lets the call through, [Some msg] makes
      it fail with the error [External msg] and change nothing; an
      exhausted schedule lets every call through;
    - [clock], [ticks]: the n-th reading of [time.Now()];
    - [entropy], [drawn]: the n-th value read from the random source;
    - [trace]: the calls made so far, oldest first. *)
Record World : Type := {
  users : list User;
  attachments : list Attachment;
  bucket : gmap string Object;
  faults : list (option string);
  clock : nat -> time.Time;
  ticks : nat;
  entropy : nat -> string;
  drawn : nat;
  trace : list Event
}.

Definition set_users (us : list User) (w : World) : World :=
  {| users := us; attachments := attachments w; bucket := bucket w;
     faults := faults w; clock := clock w; ticks := ticks w;
     entropy := entropy w; drawn := drawn w; trace := trace w |}.

Definition set_attachments (ats : list Attachment) (w : World) : World :=
  {| users := users w; attachments := ats; bucket := bucket w;
     faults := faults w; clock := clock w; ticks := ticks w;
     entropy := entropy w; drawn := drawn w; trace := trace w |}.

Definition set_bucket (b : gmap string Object) (w : World) : World :=
  {| users := users w; attachments := attachments w; bucket := b;
     faults := faults w; clock := clock w; ticks := ticks w;
     entropy := entropy w; drawn := drawn w; trace := trace w |}.

Definition set_faults (fs : list (option string)) (w : World) : World :=
  {| users := users w; attachments := attachments w; bucket := bucket w;
     faults := fs; clock := clock w; ticks := ticks w;
     entropy := entropy w; drawn := drawn w; trace := trace w |}.

Definition set_ticks (n : nat) (w : World) : World :=
  {| users := users w; attachments := attachments w; bucket := bucket w;
     faults := faults w; clock := clock w; ticks := n;
     entropy := entropy w; drawn := drawn w; trace := trace w |}.

Definition set_drawn (n : nat) (w : World) : World :=
  {| users := users w; attachments := attachments w; bucket := bucket w;
     faults := faults w; clock := clock w; ticks := ticks w;
     entropy := entropy w; drawn := n; trace := trace w |}.

Definition set_trace (t : list Event) (w : World) : World :=
  {| users := users w; attachments := attachments w; bucket := bucket w;
     faults := faults w; clock := clock w; ticks := ticks w;
     entropy := entropy w; drawn := drawn w; trace := t |}.

(** How a Go call ends: it returns, or it panics. *)
Inductive outcome (A : Type) : Type :=
| Returns (a : A)
| Panics (msg : string).
Arguments Returns {A} a.
Arguments Panics {A} msg.

Definition M (A : Type) : Type := World -> outcome A * World.

#[export] Instance M_ret : MRet M := fun A a w => (Returns a, w).

#[export] Instance M_bind : MBind M := fun A B k c w =>
  match c w with
  | (Returns a, w') => k a w'
  | (Panics msg, w') => (Panics msg, w')
  end.

Definition run {A : Type} (c : M A) (w : World) : outcome A * World := c w.

Definition panic {A : Type} (msg : string) : M A := fun w => (Panics msg, w).

Definition nilDereference : string :=
  "runtime error: invalid memory address or nil pointer dereference".

(** Reading through a pointer. *)
Definition deref {A : Type} (p : option A) : M A :=
  match p with
  | Some a => mret a
  | None => panic nilDereference
  end.

Definition emit (e : Event) : M unit :=
  fun w => (Returns tt, set_trace (trace w ++ [e]) w).

(** The answer scheduled for the next outside call. *)
Definition upcoming (w : World) : option error :=
  match hd None (faults w) with
  | Some msg => Some (External msg)
  | None => None
  end.

(** The next outside call takes its answer from the schedule. *)
Definition nextFault : M (option error) :=
  fun w => (Returns (upcoming w), set_faults (tl (faults w)) w).

(** [time.Now()]. *)
Definition Now : M time.Time :=
  fun w => (Returns (clock w (ticks w)), set_ticks (S (ticks w)) w).

(** A read from the random source ([uuid.NewString()], a bcrypt salt). *)
Definition random : M string :=
  fun w => (Returns (entropy w (drawn w)), set_drawn (S (drawn w)) w).

Definition gets {A : Type} (f : World -> A) : M A := fun w => (Returns (f w), w).
Definition modify (f : World -> World) : M unit := fun w => (Returns tt, f w).

End runtime.
Export runtime.

(* ===================================================================== *)
(** ** The database (gorm over PostgreSQL) and the AWS SDK *)
(* ===================================================================== *)

Module gorm.
Import entities.

(** [db.First(&u, "<column> = ?", value).Error] on the users table, with
    [&u] pointing at a zero value: the first row whose column has the
    value, [ErrRecordNotFound] when there is none; when the query itself
    fails, the destination keeps its zero value. *)
Definition FirstUser (colname : string) (column : User -> string)
    (value : string) : M (User * option error) :=
  f ← nextFault;
  match f with
  | Some e =>
      emit (EvUserFirst colname value (Some e));;
      mret (zeroUser, Some e)
  | None =>
      rows ← gets users;
      match List.find (fun r => String.eqb (column r) value) rows with
      | Some r =>
          emit (EvUserFirst colname value None);;
          mret (r, None)
      | None =>
          emit (EvUserFirst colname value (Some (Sentinel gorm_ErrRecordNotFound)));;
          mret (zeroUser, Some (Sentinel gorm_ErrRecordNotFound))
      end
  end.

(** [newUUID(&u.ID)], the BeforeCreate hook of both entities. *)
Definition newUUID (id : string) : M string :=
  if String.eqb id "" then random else mret id.

Definition uniqueViolation : error :=
  External "duplicate key value violates unique constraint".

(** [db.Create(user).Error]: the hook fills the ID, then the row is
    inserted unless the primary key or the unique index on email refuses
    it.  (A clash with a soft-deleted row is one of the refusals that the
    fault schedule stands for.) *)
Definition CreateUser (u : User) : M (User * option error) :=
  id ← newUUID (ID u);
  let u := withID u id in
  f ← nextFault;
  match f with
  | Some e => emit (EvUserCreate u (Some e));; mret (u, Some e)
  | None =>
      rows ← gets users;
      if existsb (fun r => String.eqb (ID r) (ID u) || String.eqb (Email r) (Email u)) rows
      then emit (EvUserCreate u (Some uniqueViolation));;
           mret (u, Some uniqueViolation)
      else modify (set_users (rows ++ [u]));;
           emit (EvUserCreate u None);;
           mret (u, None)
  end.

(** [db.Create(attachment).Error]. *)
Definition CreateAttachment (a : Attachment) : M (Attachment * option error) :=
  id ← newUUID (aID a);
  let a := withAttachmentID a id in
  f ← nextFault;
  match f with
  | Some e => emit (EvAttachmentCreate a (Some e));; mret (a, Some e)
  | None =>
      rows ← gets attachments;
      if existsb (fun r => String.eqb (aID r) (aID a)) rows
      then emit (EvAttachmentCreate a (Some uniqueViolation));;
           mret (a, Some uniqueViolation)
      else modify (set_attachments (rows ++ [a]));;
           emit (EvAttachmentCreate a None);;
           mret (a, None)
  end.

End gorm.

Module s3.

(** [s3.Client.PutObject]: on success the bucket holds the object. *)
Definition PutObject (key : string) (o : Object) : M (option error) :=
  f ← nextFault;
  emit (EvPutObject key f);;
  match f with
  | Some e => mret (Some e)
  | None => modify (fun w => set_bucket (<[key := o]> (bucket w)) w);; mret None
  end.

(** [s3.Client.DeleteObject]: on success the key is gone. *)
Definition DeleteObject (key : string) : M (option error) :=
  f ← nextFault;
  emit (EvDeleteObject key f);;
  match f with
  | Some e => mret (Some e)
  | None => modify (fun w => set_bucket (delete key (bucket w)) w);; mret None
  end.

End s3.

(* ===================================================================== *)
(** ** github.com/golang-jwt/jwt/v5 and golang.org/x/crypto/bcrypt *)
(* ===================================================================== *)

Module jwt.
Import time.

(** The registered signing methods: the HMAC family
    ([*jwt.SigningMethodHMAC]) and the others (RS256, ES256, none, ...). *)
Inductive SigningMethod : Type :=
| HS256
| HS384
| HS512
| OtherMethod (alg : string).

(** The type assertion of [t.Method] to the HMAC signing method. *)
Definition isHMAC (m : SigningMethod) : bool :=
  match m with
  | OtherMethod _ => false
  | _ => true
  end.

(** The time claims of [jwt.RegisteredClaims]; the default validator looks
    at nothing else. *)
Record RegisteredClaims : Type := {
  ExpiresAt : option Time;
  NotBefore : option Time;
  IssuedAt : option Time
}.

(** [jwt.NewNumericDate(t)]: [t] truncated to [jwt.TimePrecision], one
    second. *)
Definition NewNumericDate (t : Time) : Time := Truncate t Second.

(** The [jwt.Claims] interface, as far as validation reads it. *)
Class Claims (C : Type) : Type := {
  Registered : C -> RegisteredClaims
}.

(** What the library does with bytes, for claims of type [C]:
    - [HMAC m key text]: the MAC of [text] under [key] with the hash of [m];
    - [SigningString m c]: base64url(header) "." base64url(claims);
    - [Compact text sig]: [text] "." base64url([sig]);
    - [Split s]: the method, the claims, the signed text and the signature
      of a compact token, [None] when [s] is not one (wrong number of
      segments, bad base64 or JSON, unknown alg);
    - a token written by the library reads back as written. *)
Class Lib (C : Type) : Type := {
  HMAC : SigningMethod -> string -> string -> string;
  SigningString : SigningMethod -> C -> string;
  Compact : string -> string -> string;
  Split : string -> option (SigningMethod * C * string * string);
  Split_Compact : forall m c sig,
    Split (Compact (SigningString m c) sig) = Some (m, c, SigningString m c, sig)
}.

(** [*jwt.Token], as far as the callers read it. *)
Record Token (C : Type) : Type := {
  Method : SigningMethod;
  TokenClaims : C;
  Valid : bool
}.
Arguments Method {C} t.
Arguments TokenClaims {C} t.
Arguments Valid {C} t.

Section Library.
Context {C : Type} `{!Claims C} `{!Lib C}.

(** [token.SignedString(key)] with a byte-slice key: the HMAC methods
    sign, the others refuse the key type. *)
Definition SignedString (m : SigningMethod) (c : C) (key : string)
    : string * option error :=
  if isHMAC m
  then (Compact (SigningString m c) (HMAC m key (SigningString m c)), None)
  else ("", Some (External "key is of invalid type")).

(** [Method.Verify(text, sig, key)] with a byte-slice key. *)
Definition Verify (m : SigningMethod) (text sig key : string) : option error :=
  if isHMAC m
  then if String.eqb sig (HMAC m key text) then None
       else Some (External "signature is invalid")
  else Some (External "key is of invalid type").

Definition join (a b : option error) : option error :=
  match a, b with
  | Some x, Some y => Some (Multi x y)
  | Some x, None => Some x
  | None, b => b
  end.

(** [Validator.Validate] with the default options: no leeway, [exp] and
    [nbf] checked when present, [iat] not checked. *)
Definition Validate (now : Time) (rc : RegisteredClaims) : option error :=
  let exp :=
    match ExpiresAt rc with
    | Some e => if Before now e then None else Some (Sentinel jwt_ErrTokenExpired)
    | None => None
    end in
  let nbf :=
    match NotBefore rc with
    | Some n => if Before now n then Some (Sentinel jwt_ErrTokenNotValidYet) else None
    | None => None
    end in
  join exp nbf.

(** [jwt.ParseWithClaims(tokenString, &C{}, keyFunc)], version 5: split,
    ask [keyFunc] for the key, verify the signature, and only then
    validate the claims against [time.Now()]. *)
Definition ParseWithClaims (tokenString : string)
    (keyFunc : Token C -> string + error) : M (option (Token C) * option error) :=
  match Split tokenString with
  | None => mret (None, Some (Sentinel jwt_ErrTokenMalformed))
  | Some (m, c, text, sig) =>
      let token := {| Method := m; TokenClaims := c; Valid := false |} in
      match keyFunc token with
      | inr e => mret (Some token, Some (Multi (Sentinel jwt_ErrTokenUnverifiable) e))
      | inl key =>
          match Verify m text sig key with
          | Some e =>
              mret (Some token, Some (Multi (Sentinel jwt_ErrTokenSignatureInvalid) e))
          | None =>
              now ← Now;
              match Validate now (Registered c) with
              | Some e =>
                  mret (Some token, Some (Multi (Sentinel jwt_ErrTokenInvalidClaims) e))
              | None =>
                  mret (Some {| Method := m; TokenClaims := c; Valid := true |}, None)
              end
          end
      end
  end.

End Library.

End jwt.

Module bcrypt.

(** - [Reject password cost]: the error for an input bcrypt refuses (cost
      out of range, password too long), [None] otherwise;
    - [Hash password cost salt]: the hash string;
    - [CompareHashAndPassword hash password]: [None] when they match. *)
Class Lib : Type := {
  Reject : string -> Z -> option error;
  Hash : string -> Z -> string -> string;
  CompareHashAndPassword : string -> string -> option error
}.

(** [bcrypt.GenerateFromPassword(password, cost)], salted from the random
    source. *)
Definition GenerateFromPassword `{!Lib} (password : string) (cost : Z)
    : M (string * option error) :=
  emit (EvBcryptGenerate password);;
  match Reject password cost with
  | Some e => mret ("", Some e)
  | None => salt ← random; mret (Hash password cost salt, None)
  end.

(** The comparison, recorded in the trace. *)
Definition Compare `{!Lib} (hash password : string) : M (option error) :=
  emit (EvBcryptCompare hash password);;
  mret (CompareHashAndPassword hash password).

End bcrypt.

(* ===================================================================== *)
(** ** pkg/auth/jwt.go *)
(* ===================================================================== *)

Module auth.
Import time.

(** [TokenType] is a string type; a token from the wire can carry any
    string here. *)
Definition TokenType : Type := string.
Definition AccessToken : TokenType := "access".
Definition RefreshToken : TokenType := "refresh".

Record Claims : Type := {
  UserID : string;
  Role : string;
  TokenType_ : TokenType;
  RegisteredClaims : jwt.RegisteredClaims
}.

#[export] Instance Claims_jwt : jwt.Claims Claims := {|
  jwt.Registered := RegisteredClaims
|}.

Record Manager : Type := {
  secret : string;
  accessTTL : Duration;
  refreshTTL : Duration
}.

Definition NewManager (secrete : string) (accessTTL refreshTTL : Duration) : Manager :=
  {| secret := secrete; accessTTL := accessTTL; refreshTTL := refreshTTL |}.

Definition ErrTokenExpired : error := Sentinel auth_ErrTokenExpired.
Definition ErrTokenInvalid : error := Sentinel auth_ErrTokenInvalid.

Section Manager.
Context `{!jwt.Lib Claims}.

Definition generate (m : Manager) (userID role : string) (tt : TokenType)
    (ttl : Duration) : M (string * option error) :=
  now ← Now;
  let claims :=
    {| UserID := userID;
       Role := role;
       TokenType_ := tt;
       RegisteredClaims :=
         {| jwt.IssuedAt := Some (jwt.NewNumericDate now);
            jwt.ExpiresAt := Some (jwt.NewNumericDate (Add now ttl));
            jwt.NotBefore := None |} |} in
  match jwt.SignedString jwt.HS256 claims (secret m) with
  | (_, Some err) => mret ("", Some (Wrapf "failed to sign token" err))
  | (signed, None) => mret (signed, None)
  end.

Definition GenerateAccessToken (m : Manager) (userID role : string)
    : M (string * option error) :=
  generate m userID role AccessToken (accessTTL m).

Definition GenerateRefreshToken (m : Manager) (userID role : string)
    : M (string * option error) :=
  generate m userID role RefreshToken (refreshTTL m).

(** The key function handed to the library: HMAC methods only. *)
Definition keyFunc (m : Manager) (t : jwt.Token Claims) : string + error :=
  if jwt.isHMAC (jwt.Method t) then inl (secret m)
  else inr (External "unexpected signing method").

Definition Parse (m : Manager) (tokenStr : string)
    : M (option Claims * option error) :=
  '(token, err) ← jwt.ParseWithClaims tokenStr (keyFunc m);
  match err with
  | Some err =>
      if errors.Is err jwt_ErrTokenExpired
      then mret (None, Some (Sentinel jwt_ErrTokenExpired))
      else mret (None, Some ErrTokenInvalid)
  | None =>
      token ← deref token;
      if negb (jwt.Valid token) then mret (None, Some ErrTokenInvalid)
      else mret (Some (jwt.TokenClaims token), None)
  end.

End Manager.

End auth.

(* ===================================================================== *)
(** ** Standard-library helpers: strings, path/filepath, fmt *)
(* ===================================================================== *)

Module gostrings.

Definition space : ascii := Ascii.ascii_of_nat 32.
Definition slash : ascii := Ascii.ascii_of_nat 47.
Definition underscore : ascii := Ascii.ascii_of_nat 95.

(** [strings.SplitN(s, " ", 2)]: [s] cut at its first space, or [s] alone
    when it has none. *)
Fixpoint cutSpace (s : string) : option (string * string) :=
  match s with
  | EmptyString => None
  | String a rest =>
      if Ascii.eqb a space then Some (EmptyString, rest)
      else match cutSpace rest with
           | Some (before, after) => Some (String a before, after)
           | None => None
           end
  end.

Definition SplitN2 (s : string) : list string :=
  match cutSpace s with
  | Some (before, after) => [before; after]
  | None => [s]
  end.

(** ASCII lower case; the letters of "bearer" have no other case fold. *)
Definition lower (a : ascii) : ascii :=
  let n := Ascii.nat_of_ascii a in
  if (Nat.leb 65 n && Nat.leb n 90)%bool then Ascii.ascii_of_nat (n + 32) else a.

Fixpoint ToLower (s : string) : string :=
  match s with
  | EmptyString => EmptyString
  | String a rest => String (lower a) (ToLower rest)
  end.

(** [strings.EqualFold(s, t)] for an ASCII lower-case [t]. *)
Definition EqualFold (s t : string) : bool := String.eqb (ToLower s) t.

(** [strings.ReplaceAll(s, " ", "_")]. *)
Fixpoint ReplaceAllSpace (s : string) : string :=
  match s with
  | EmptyString => EmptyString
  | String a rest =>
      String (if Ascii.eqb a space then underscore else a) (ReplaceAllSpace rest)
  end.

(** [%d] *)
Definition FormatInt (z : Z) : string := NilEmpty.string_of_int (Z.to_int z).

End gostrings.

Module filepath.
Import gostrings.

(** The characters of a path, last one first, without trailing slashes. *)
Fixpoint dropSlashes (rev_path : list ascii) : list ascii :=
  match rev_path with
  | a :: rest => if Ascii.eqb a slash then dropSlashes rest else rev_path
  | [] => []
  end.

(** The last element, read from the end up to the first slash met. *)
Fixpoint lastElement (rev_path : list ascii) : list ascii :=
  match rev_path with
  | a :: rest => if Ascii.eqb a slash then [] else a :: lastElement rest
  | [] => []
  end.

(** [filepath.Base(path)] on a Unix system. *)
Definition Base (path : string) : string :=
  if String.eqb path "" then "."
  else
    let stripped := dropSlashes (rev (list_ascii_of_string path)) in
    let base := string_of_list_ascii (rev (lastElement stripped)) in
    if String.eqb base "" then "/" else base.

End filepath.

(* ===================================================================== *)
(** ** internal/repositories *)
(* ===================================================================== *)

Module repositories.
Import entities.

Definition ErrNotFound : error := Sentinel repositories_ErrNotFound.
Definition ErrDuplicateKey : error := Sentinel repositories_ErrDuplicateKey.

(** The [UserRepository] interface, the methods the modelled services
    call.  [Create] also returns the record as the call leaves it behind
    the pointer. *)
Record UserRepository : Type := {
  Create : User -> M (User * option error);
  FindByID : string -> M (option User * option error);
  FindByEmail : string -> M (option User * option error)
}.

(** [err != nil && errors.Is(err, target)]; [errors.Is(nil, _)] is false. *)
Definition isErr (err : option error) (target : sentinel) : bool :=
  match err with
  | Some e => errors.Is e target
  | None => false
  end.

Definition userRepo_Create (user : User) : M (User * option error) :=
  '(user, err) ← gorm.CreateUser user;
  match err with
  | Some err => mret (user, Some err)
  | None => mret (user, None)
  end.

Definition userRepo_FindByID (id : string) : M (option User * option error) :=
  '(u, err) ← gorm.FirstUser "id" ID id;
  if isErr err gorm_ErrRecordNotFound then mret (None, Some ErrNotFound)
  else
    (* [if err != nil] only logs *)
    mret (Some u, None).

Definition userRepo_FindByEmail (email : string) : M (option User * option error) :=
  '(u, err) ← gorm.FirstUser "email" Email email;
  if isErr err gorm_ErrRecordNotFound then mret (None, Some ErrNotFound)
  else
    (* [if err != nil] only logs *)
    mret (Some u, None).

(** [NewUserRepository(db, log)] *)
Definition NewUserRepository : UserRepository := {|
  Create := userRepo_Create;
  FindByID := userRepo_FindByID;
  FindByEmail := userRepo_FindByEmail
|}.

(** The [AttachmentRepository] interface. *)
Record AttachmentRepository : Type := {
  CreateAttachment : Attachment -> M (Attachment * option error)
}.

Definition attachmentRepo_Create (attachment : Attachment)
    : M (Attachment * option error) :=
  '(attachment, err) ← gorm.CreateAttachment attachment;
  match err with
  | Some err => mret (attachment, Some err)
  | None => mret (attachment, None)
  end.

Definition NewAttachmentRepository : AttachmentRepository := {|
  CreateAttachment := attachmentRepo_Create
|}.

End repositories.

(* ===================================================================== *)
(** ** pkg/storage/s3.go *)
(* ===================================================================== *)

Module storage.

Record Client : Type := {
  bucketName : string
}.

Record UploadInput : Type := {
  Key : string;
  Body : string;
  ContentType : string;
  Size : Z
}.

(** [AttachmentService.Create] reads [PresignedURL] from the output, a
    field that [Upload] as written in s3.go never fills. *)
Record UploadOutput : Type := {
  URL : string;
  PresignedURL : string
}.

Definition dquote : string := String (Ascii.ascii_of_nat 34) EmptyString.

(** [%q] for a key without characters that need escaping. *)
Definition quoted (s : string) : string := dquote +:+ s +:+ dquote.

Definition Upload (c : Client) (in_ : UploadInput)
    : M (option UploadOutput * option error) :=
  let o := {| runtime.Body := Body in_;
              runtime.ContentType := ContentType in_;
              runtime.ContentLength := Size in_ |} in
  err ← s3.PutObject (Key in_) o;
  match err with
  | Some err =>
      mret (None, Some (Wrapf ("s3 PutObject " +:+ quoted (Key in_)) err))
  | None =>
      let url := "https://" +:+ bucketName c +:+ ".s3.amazonaws.com/" +:+ Key in_ in
      mret (Some {| URL := url; PresignedURL := "" |}, None)
  end.

Definition Delete (c : Client) (key : string) : M (option error) :=
  err ← s3.DeleteObject key;
  match err with
  | Some err => mret (Some (Wrapf ("s3 DeleteObject " +:+ quoted key) err))
  | None => mret None
  end.

End storage.

(* ===================================================================== *)
(** ** internal/services *)
(* ===================================================================== *)

Module services.
Import entities.

Module RegisterInput.
Record t : Type := { Email : string; Username : string; Password : string }.
End RegisterInput.

Module LoginInput.
Record t : Type := { Email : string; Password : string }.
End LoginInput.

Module TokenPair.
Record t : Type := { AccessToken : string; RefreshToken : string }.
End TokenPair.

Definition ErrEmailTaken : error := Sentinel services_ErrEmailTaken.
Definition ErrInvalidCredentials : error := Sentinel services_ErrInvalidCredentials.
Definition ErrInvalidRefreshToken : error := Sentinel services_ErrInvalidRefreshToken.

Record UserService : Type := {
  repo : repositories.UserRepository;
  jwtManager : auth.Manager;
  bcryptCost : Z
}.

Section UserService.
Context `{!jwt.Lib auth.Claims} `{!bcrypt.Lib}.

(** Register creates a new user after hashing the password. *)
Definition Register (s : UserService) (in_ : RegisterInput.t)
    : M (option User * option error) :=
  '(_, err) ← repositories.FindByEmail (repo s) (RegisterInput.Email in_);
  match err with
  | None => mret (None, Some ErrEmailTaken)
  | Some _ =>
      '(hash, err) ← bcrypt.GenerateFromPassword (RegisterInput.Password in_) (bcryptCost s);
      match err with
      | Some err => mret (None, Some (Wrapf "hashing password" err))
      | None =>
          let user :=
            {| ID := "";
               Email := RegisterInput.Email in_;
               Username := RegisterInput.Username in_;
               PasswordHash := hash;
               Role := "user" |} in
          '(user, err) ← repositories.Create (repo s) user;
          match err with
          | Some err => mret (None, Some (Wrapf "creating user" err))
          | None => mret (Some user, None)
          end
      end
  end.

(** issueTokenPair generates a pair of tokens for an authenticated user. *)
Definition issueTokenPair (s : UserService) (userID role : string)
    : M (option TokenPair.t * option error) :=
  '(access, err) ← auth.GenerateAccessToken (jwtManager s) userID role;
  match err with
  | Some err => mret (None, Some (Wrapf "generating access token" err))
  | None =>
      '(refresh, err) ← auth.GenerateRefreshToken (jwtManager s) userID role;
      match err with
      | Some err => mret (None, Some (Wrapf "generating refresh token" err))
      | None =>
          mret (Some {| TokenPair.AccessToken := access;
                        TokenPair.RefreshToken := refresh |}, None)
      end
  end.

(** Login authenticates credentials and returns a JWT token pair.  The
    lookup error ends the call only when it is the repository's
    not-found error; after any other outcome the code reads
    [user.PasswordHash]. *)
Definition Login (s : UserService) (in_ : LoginInput.t)
    : M (option User * option TokenPair.t * option error) :=
  '(user, err) ← repositories.FindByEmail (repo s) (LoginInput.Email in_);
  let proceed : M (option User * option TokenPair.t * option error) :=
    u ← deref user;
    cmp ← bcrypt.Compare (PasswordHash u) (LoginInput.Password in_);
    match cmp with
    | Some _ => mret (None, None, Some ErrInvalidCredentials)
    | None =>
        '(tokens, err) ← issueTokenPair s (ID u) (Role u);
        match err with
        | Some err => mret (None, None, Some err)
        | None => mret (user, tokens, None)
        end
    end in
  match err with
  | Some err =>
      if errors.Is err repositories_ErrNotFound
      then mret (None, None, Some err)
      else proceed
  | None => proceed
  end.

(** RefreshTokens validates a refresh token and issues a new pair.  The
    subject of the token is looked up with [FindByEmail]. *)
Definition RefreshTokens (s : UserService) (refreshToken : string)
    : M (option TokenPair.t * option error) :=
  '(claims, err) ← auth.Parse (jwtManager s) refreshToken;
  match err with
  | Some _ => mret (None, Some ErrInvalidRefreshToken)
  | None =>
      claims ← deref claims;
      if negb (String.eqb (auth.TokenType_ claims) auth.RefreshToken)
      then mret (None, Some ErrInvalidRefreshToken)
      else
        '(user, err) ← repositories.FindByEmail (repo s) (auth.UserID claims);
        match err with
        | Some _ => mret (None, Some ErrInvalidCredentials)
        | None =>
            user ← deref user;
            '(tokens, err) ← issueTokenPair s (ID user) (Role user);
            match err with
            | Some err => mret (None, Some err)
            | None => mret (tokens, None)
            end
        end
  end.

End UserService.

(** [multipart.FileHeader]: the name, the declared size, and the MIME
    header of the part. *)
Record FileHeader : Type := {
  Filename : string;
  Size : Z;
  Header : gmap string (list string)
}.

(** [Header.Get(key)]: the first value of the key, or the empty string. *)
Definition Header_Get (h : gmap string (list string)) (key : string) : string :=
  match h !! key with
  | Some (v :: _) => v
  | _ => ""
  end.

(** [FileUploadInput]; [File] is the content the open handle yields. *)
Record FileUploadInput : Type := {
  NoteID : string;
  MessageID : string;
  File : string;
  FileHeader_ : option FileHeader
}.

Record AttachmentService : Type := {
  attRepo : repositories.AttachmentRepository;
  s3Client : storage.Client
}.

Definition Create (s : AttachmentService) (in_ : FileUploadInput)
    : M (option Attachment * string * option error) :=
  (* S3 *)
  fh ← deref (FileHeader_ in_);
  let safeName := filepath.Base (Filename fh) in
  let safeName := gostrings.ReplaceAllSpace safeName in
  now ← Now;
  let s3Key :=
    "attachments/" +:+ NoteID in_ +:+ "/"
      +:+ gostrings.FormatInt (time.UnixMilli now) +:+ "_" +:+ safeName in
  (* Detect MIME type *)
  let contentType := Header_Get (Header fh) "Content-Type" in
  let contentType :=
    if String.eqb contentType "" then "application/octet-stream" else contentType in
  (* Upload to S3 *)
  '(uploadOut, err) ← storage.Upload (s3Client s)
      {| storage.Key := s3Key;
         storage.Body := File in_;
         storage.ContentType := contentType;
         storage.Size := Size fh |};
  match err with
  | Some err => mret (None, "", Some (Wrapf "uploading attachment to S3" err))
  | None =>
      uploadOut ← deref uploadOut;
      (* Save to DB *)
      let att :=
        {| aID := "";
           entities.NoteID := NoteID in_;
           entities.MessageID := MessageID in_;
           entities.URL := storage.URL uploadOut;
           Name := Filename fh;
           Type_ := contentType;
           entities.Size := Size fh;
           S3Key := s3Key |} in
      '(att, err) ← repositories.CreateAttachment (attRepo s) att;
      match err with
      | Some err =>
          (* DB write failed after a successful S3 upload: attempt to clean
             up the orphaned S3 object; a failure of the delete is logged *)
          _ ← storage.Delete (s3Client s) s3Key;
          mret (None, "", Some (Wrapf "saving attachment metadata" err))
      | None => mret (Some att, storage.PresignedURL uploadOut, None)
      end
  end.

End services.

(* ===================================================================== *)
(** ** gin, internal/utils (the response helpers) *)
(* ===================================================================== *)

Module utils.

(** What a handler of the modelled code puts in the [data] field. *)
Inductive Data : Type :=
| NoData
| LoginData (id email username role accessToken refreshToken : string).

(** The canonical JSON envelope. *)
Record Response : Type := {
  Success : bool;
  Data_ : Data;
  Error_ : string
}.

End utils.

Module gin.

(** The request and what the handlers have done to it so far:
    - [Authorization]: [c.GetHeader("Authorization")], empty when absent;
    - [Bound]: what [c.ShouldBindJSON] makes of the body, for a body of
      type [B];
    - [Keys]: the values stored with [c.Set];
    - [Written]: the status and body written with [c.JSON];
    - [Aborted]: whether [c.Abort()] was called. *)
Record Context (B : Type) : Type := {
  Authorization : string;
  Bound : B + error;
  Keys : gmap string string;
  Written : option (Z * utils.Response);
  Aborted : bool
}.
Arguments Authorization {B} c.
Arguments Bound {B} c.
Arguments Keys {B} c.
Arguments Written {B} c.
Arguments Aborted {B} c.

Definition JSON {B : Type} (c : Context B) (status : Z) (r : utils.Response)
    : Context B :=
  {| Authorization := Authorization c; Bound := Bound c; Keys := Keys c;
     Written := Some (status, r); Aborted := Aborted c |}.

Definition Abort {B : Type} (c : Context B) : Context B :=
  {| Authorization := Authorization c; Bound := Bound c; Keys := Keys c;
     Written := Written c; Aborted := true |}.

Definition Set_ {B : Type} (c : Context B) (key value : string) : Context B :=
  {| Authorization := Authorization c; Bound := Bound c;
     Keys := <[key := value]> (Keys c);
     Written := Written c; Aborted := Aborted c |}.

Definition StatusOK : Z := 200.
Definition StatusBadRequest : Z := 400.
Definition StatusUnauthorized : Z := 401.
Definition StatusInternalServerError : Z := 500.

End gin.

Module responses.
Import utils gin.

Definition OK {B : Type} (c : Context B) (data : Data) : Context B :=
  JSON c StatusOK {| Success := true; Data_ := data; Error_ := "" |}.

Definition BadRequest {B : Type} (c : Context B) (msg : string) : Context B :=
  JSON c StatusBadRequest {| Success := false; Data_ := NoData; Error_ := msg |}.

Definition Unauthorized {B : Type} (c : Context B) (msg : string) : Context B :=
  JSON c StatusUnauthorized {| Success := false; Data_ := NoData; Error_ := msg |}.

Definition InternalError {B : Type} (c : Context B) : Context B :=
  JSON c StatusInternalServerError
    {| Success := false; Data_ := NoData; Error_ := "internal server error" |}.

End responses.

(* ===================================================================== *)
(** ** internal/middleware/middleware.go *)
(* ===================================================================== *)

Module middleware.
Import gin responses gostrings.

Definition ContextKeyUserID : string := "userID".
Definition ContextKeyRole : string := "role".

Section Authenticate.
Context `{!jwt.Lib auth.Claims} {B : Type}.

(** Authenticate validates the Bearer JWT in the Authorization header; on
    success it stores userID and role in the context and runs [next],
    the rest of the handler chain ([c.Next()]). *)
Definition Authenticate (jwtManager : auth.Manager)
    (next : Context B -> M (Context B)) (c : Context B) : M (Context B) :=
  let header := Authorization c in
  if String.eqb header ""
  then mret (Abort (Unauthorized c "authorization header required"))
  else
    (* Extract access token *)
    let parts := SplitN2 header in
    if negb (Nat.eqb (length parts) 2) || negb (EqualFold (nth 0 parts "") "bearer")
    then mret (Abort (Unauthorized c "invalid authorization header format"))
    else
      (* Parse the token *)
      '(claims, err) ← auth.Parse jwtManager (nth 1 parts "");
      match err with
      | Some err =>
          let c :=
            if errors.same err auth_ErrTokenExpired
            then Unauthorized c "token has expired"
            else Unauthorized c "invalid token" in
          mret (Abort c)
      | None =>
          claims ← deref claims;
          if negb (String.eqb (auth.TokenType_ claims) auth.AccessToken)
          then mret (Abort (Unauthorized c "invalid token type"))
          else
            (* Authenticate *)
            let c := Set_ c ContextKeyUserID (auth.UserID claims) in
            let c := Set_ c ContextKeyRole (auth.Role claims) in
            next c
      end.

End Authenticate.

End middleware.

(* ===================================================================== *)
(** ** internal/handlers/auth_handler.go *)
(* ===================================================================== *)

Module handlers.
Import gin responses services.

(** [validate] stands for [h.validate.Struct] on a login input. *)
Record AuthHandler : Type := {
  userSvc : UserService;
  validate : LoginInput.t -> option error
}.

Section AuthHandler.
Context `{!jwt.Lib auth.Claims} `{!bcrypt.Lib}.

(** Login  POST /api/v1/auth/login *)
Definition Login (h : AuthHandler) (c : Context LoginInput.t)
    : M (Context LoginInput.t) :=
  match Bound c with
  | inr _ => mret (BadRequest c "invalid request body")
  | inl in_ =>
      match validate h in_ with
      | Some err => mret (BadRequest c (errors.Error err))
      | None =>
          '(user, tokens, err) ← services.Login (userSvc h) in_;
          match err with
          | Some err =>
              if errors.Is err services_ErrInvalidCredentials
              then mret (Unauthorized c (errors.Error err))
              else mret (InternalError c)
          | None =>
              user ← deref user;
              tokens ← deref tokens;
              mret (OK c (utils.LoginData
                            (entities.ID user) (entities.Email user)
                            (entities.Username user) (entities.Role user)
                            (TokenPair.AccessToken tokens)
                            (TokenPair.RefreshToken tokens)))
          end
      end
  end.

End AuthHandler.

End handlers.

(* ===================================================================== *)
(** ** Specification vocabulary *)
(* ===================================================================== *)

Module spec.
Import entities.

(** The world after one more reading of the clock. *)
Definition tick (w : World) : World := set_ticks (S (ticks w)) w.

(** The reading the next [time.Now()] returns. *)
Definition reading (w : World) : time.Time := clock w (ticks w).

(** The claims [generate] writes at time [now]. *)
Definition issuedClaims (userID role : string) (tt : auth.TokenType)
    (now : time.Time) (ttl : time.Duration) : auth.Claims :=
  {| auth.UserID := userID;
     auth.Role := role;
     auth.TokenType_ := tt;
     auth.RegisteredClaims :=
       {| jwt.IssuedAt := Some (jwt.NewNumericDate now);
          jwt.ExpiresAt := Some (jwt.NewNumericDate (time.Add now ttl));
          jwt.NotBefore := None |} |}.

(** The compact HS256 token for claims [c] under [key]. *)
Definition signed `{!jwt.Lib auth.Claims} (key : string) (c : auth.Claims) : string :=
  jwt.Compact (jwt.SigningString jwt.HS256 c)
              (jwt.HMAC jwt.HS256 key (jwt.SigningString jwt.HS256 c)).

(** [s] is a compact token whose signature is the MAC of its text under
    [key]. *)
Definition signedUnder `{!jwt.Lib auth.Claims} (key : string) (s : string) : Prop :=
  exists m c text,
    jwt.Split s = Some (m, c, text, jwt.HMAC m key text).

(** The idealised MAC: over the same text, two keys give the same MAC
    only when they are the same key. *)
Definition keyBinding `{!jwt.Lib auth.Claims} : Prop :=
  forall m key key' text,
    jwt.HMAC m key text = jwt.HMAC m key' text -> key = key'.

End spec.

Import spec.

Module saga.
Import entities services.

(** The attachment service over the gorm-backed repository and the S3
    client. *)
Definition service (client : storage.Client) : AttachmentService :=
  {| attRepo := repositories.NewAttachmentRepository; s3Client := client |}.

Definition isFailedBlobWrite (e : Event) : bool :=
  match e with EvPutObject _ (Some _) => true | _ => false end.

Definition isMetadataWrite (e : Event) : bool :=
  match e with EvAttachmentCreate _ _ => true | _ => false end.

Definition isFailedMetadataWrite (e : Event) : bool :=
  match e with EvAttachmentCreate _ (Some _) => true | _ => false end.

Definition isCompensation (e : Event) : bool :=
  match e with EvDeleteObject _ _ => true | _ => false end.

(** The three ways a run of [Create] on a request with a file header can
    end, with the calls it made, the result, and the attachments table
    before and after. *)
Inductive shape (atts : list Attachment)
  : list Event -> outcome (option Attachment * string * option error)
    -> list Attachment -> Prop :=
| UploadFailed (key : string) (e : error) :
    shape atts
      [EvPutObject key (Some e)]
      (Returns (None, "",
                Some (Wrapf "uploading attachment to S3"
                        (Wrapf ("s3 PutObject " +:+ storage.quoted key) e))))
      atts
| Recorded (att : Attachment) (presigned : string) :
    shape atts
      [EvPutObject (S3Key att) None; EvAttachmentCreate att None]
      (Returns (Some att, presigned, None))
      (atts ++ [att])
| Compensated (att : Attachment) (e : error) (del : option error) :
    shape atts
      [EvPutObject (S3Key att) None; EvAttachmentCreate att (Some e);
       EvDeleteObject (S3Key att) del]
      (Returns (None, "", Some (Wrapf "saving attachment metadata" e)))
      atts.

End saga.

Module wiring.
Import entities services.

(** The user service over the gorm-backed repository. *)
Definition userService (m : auth.Manager) (cost : Z) : UserService :=
  {| repo := repositories.NewUserRepository; jwtManager := m; bcryptCost := cost |}.

(** The world after one database or S3 call that appended [ev]. *)
Definition answered (ev : Event) (w : World) : World :=
  set_trace (trace w ++ [ev]) (set_faults (tl (faults w)) w).

(** The first row with the given email. *)
Definition byEmail (email : string) (w : World) : option User :=
  List.find (fun r => String.eqb (Email r) email) (users w).

(** The first row with the given id. *)
Definition byID (id : string) (w : World) : option User :=
  List.find (fun r => String.eqb (ID r) id) (users w).

(** What the database answers to the next query when that query is the
    lookup of [value] that finds [row]. *)
Definition firstAnswer (row : option User) (w : World) : option error :=
  match upcoming w with
  | Some e => Some e
  | None =>
      match row with
      | Some _ => None
      | None => Some (Sentinel gorm_ErrRecordNotFound)
      end
  end.

End wiring.

Import wiring.

Module flows.
Import entities services.

Section Flows.
Context `{!jwt.Lib auth.Claims} `{!bcrypt.Lib}.

(** The pair [issueTokenPair] makes in world [w]: the access token is
    stamped with the next reading of the clock, the refresh token with the
    reading after it. *)
Definition issuedPair (m : auth.Manager) (userID role : string) (w : World) : TokenPair.t :=
  {| TokenPair.AccessToken :=
       signed (auth.secret m)
         (issuedClaims userID role auth.AccessToken (reading w) (auth.accessTTL m));
     TokenPair.RefreshToken :=
       signed (auth.secret m)
         (issuedClaims userID role auth.RefreshToken (reading (tick w)) (auth.refreshTTL m)) |}.

(** What [Login] goes on to do with the record [u] behind the pointer the
    lookup returned: compare, then issue. *)
Definition compareAndIssue (s : UserService) (in_ : LoginInput.t) (u : User)
    : M (option User * option TokenPair.t * option error) :=
  cmp ← bcrypt.Compare (PasswordHash u) (LoginInput.Password in_);
  match cmp with
  | Some _ => mret (None, None, Some ErrInvalidCredentials)
  | None =>
      '(tokens, err) ← issueTokenPair s (ID u) (Role u);
      match err with
      | Some err => mret (None, None, Some err)
      | None => mret (Some u, tokens, None)
      end
  end.

End Flows.
End flows.

Import flows.

(* ===================================================================== *)
(** ** Reference libraries

    Small stand-ins for the two libraries, so that the model can be run on
    concrete inputs.  The token format prints a countable encoding in
    decimal; the MAC appends the key to the text; the password hash is the
    password behind a fixed prefix. *)
(* ===================================================================== *)

Module reference.
Import jwt auth.

Definition printPos (p : positive) : string :=
  NilEmpty.string_of_int (Z.to_int (Z.pos p)).

Definition readPos (s : string) : option positive :=
  match NilEmpty.int_of_string s with
  | Some d => match Z.of_int d with Z.pos p => Some p | _ => None end
  | None => None
  end.

Definition pack {A : Type} `{Countable A} (a : A) : string := printPos (encode a).

Definition unpack {A : Type} `{Countable A} (s : string) : option A :=
  match readPos s with
  | Some p => decode p
  | None => None
  end.

Definition methodCode (m : SigningMethod) : Z + string :=
  match m with
  | HS256 => inl 0
  | HS384 => inl 1
  | HS512 => inl 2
  | OtherMethod alg => inr alg
  end.

Definition methodOfCode (x : Z + string) : SigningMethod :=
  match x with
  | inl 0 => HS256
  | inl 1 => HS384
  | inl _ => HS512
  | inr alg => OtherMethod alg
  end.

Definition claimsCode (c : Claims)
    : string * string * string * (option Z * option Z * option Z) :=
  (UserID c, Role c, TokenType_ c,
   (ExpiresAt (RegisteredClaims c), NotBefore (RegisteredClaims c),
    IssuedAt (RegisteredClaims c))).

Definition claimsOfCode
    (x : string * string * string * (option Z * option Z * option Z)) : Claims :=
  let '(uid, role, kind, (exp, nbf, iat)) := x in
  {| UserID := uid; Role := role; TokenType_ := kind;
     RegisteredClaims := {| ExpiresAt := exp; NotBefore := nbf; IssuedAt := iat |} |}.

Definition refSigningString (m : SigningMethod) (c : Claims) : string :=
  pack (methodCode m, claimsCode c).

Definition refCompact (text sig : string) : string := pack (text, sig).

Definition refSplit (s : string) : option (SigningMethod * Claims * string * string) :=
  match unpack (A := string * string) s with
  | Some (text, sig) =>
      match unpack (A := (Z + string) * (string * string * string * (option Z * option Z * option Z))) text with
      | Some (m, c) => Some (methodOfCode m, claimsOfCode c, text, sig)
      | None => None
      end
  | None => None
  end.

Definition refHMAC (m : SigningMethod) (key text : string) : string := text +:+ key.

Lemma readPos_printPos (p : positive) : readPos (printPos p) = Some p.
Proof.
  unfold readPos, printPos.
  rewrite NilEmpty.isi, DecimalZ.of_to. reflexivity.
Qed.

Lemma unpack_pack {A : Type} `{Countable A} (a : A) : unpack (pack a) = Some a.
Proof.
  unfold unpack, pack. rewrite readPos_printPos. apply decode_encode.
Qed.

Lemma methodOfCode_methodCode (m : SigningMethod) : methodOfCode (methodCode m) = m.
Proof. destruct m; reflexivity. Qed.

Lemma claimsOfCode_claimsCode (c : Claims) : claimsOfCode (claimsCode c) = c.
Proof. destruct c as [uid role kind [exp nbf iat]]; reflexivity. Qed.

Lemma refSplit_refCompact (m : SigningMethod) (c : Claims) (sig : string) :
  refSplit (refCompact (refSigningString m c) sig)
  = Some (m, c, refSigningString m c, sig).
Proof.
  unfold refSplit, refCompact. rewrite unpack_pack.
  unfold refSigningString at 1. rewrite unpack_pack.
  rewrite methodOfCode_methodCode, claimsOfCode_claimsCode. reflexivity.
Qed.

Definition refJWT : jwt.Lib Claims := {|
  HMAC := refHMAC;
  SigningString := refSigningString;
  Compact := refCompact;
  Split := refSplit;
  Split_Compact := refSplit_refCompact
|}.

Definition refPrefix : string := "$2a$".

Definition refCompare (hash password : string) : option error :=
  if String.eqb hash (refPrefix +:+ password) then None
  else Some (External "hashedPassword is not the hash of the given password").

Definition refBcrypt : bcrypt.Lib := {|
  bcrypt.Reject := fun _ _ => None;
  bcrypt.Hash := fun password _ _ => refPrefix +:+ password;
  bcrypt.CompareHashAndPassword := refCompare
|}.

(** A world with an empty database and bucket, no fault scheduled, a clock
    that always reads [t], and a random source that counts. *)
Definition quiet (t : time.Time) : World :=
  {| users := []; attachments := []; bucket := ∅; faults := [];
     clock := fun _ => t; ticks := 0%nat;
     entropy := fun n => "id-" +:+ gostrings.FormatInt (Z.of_nat n); drawn := 0%nat;
     trace := [] |}.

End reference.

Import reference.

Module example.
Import entities services.

Definition manager : auth.Manager :=
  auth.NewManager "k1" (900 * time.Second) (604800 * time.Second).

Definition service : UserService := userService manager 12.

Definition ann : User :=
  {| ID := "u1"; Email := "ann@example.com"; PasswordHash := "$2a$correct horse";
     Username := "ann"; Role := "user" |}.

Definition t0 : time.Time := 1700000000123456789.

(** One registered user, a database and an object store that answer. *)
Definition world : World := set_users [ann] (quiet t0).

Definition unknownEmail : LoginInput.t :=
  {| LoginInput.Email := "bob@example.com"; LoginInput.Password := "correct horse" |}.

Definition wrongPassword : LoginInput.t :=
  {| LoginInput.Email := "ann@example.com"; LoginInput.Password := "battery staple" |}.

Definition handler : handlers.AuthHandler :=
  {| handlers.userSvc := service; handlers.validate := fun _ => None |}.

Definition request {B : Type} (authorization : string) (body : B) : gin.Context B :=
  {| gin.Authorization := authorization; gin.Bound := inl body; gin.Keys := ∅;
     gin.Written := None; gin.Aborted := false |}.

(** What was written to the client at the end of a handler. *)
Definition written {B : Type} (o : outcome (gin.Context B)) : option (Z * utils.Response) :=
  match o with
  | Returns c => gin.Written c
  | Panics _ => None
  end.

Definition failure (status : Z) (msg : string) : option (Z * utils.Response) :=
  Some (status, {| utils.Success := false; utils.Data_ := utils.NoData; utils.Error_ := msg |}).

(** A repository whose lookups fail the way a test double would make them
    fail: no record, and an error that is not the not-found error. *)
Definition brokenRepository : repositories.UserRepository :=
  {| repositories.Create := fun u => mret (u, None);
     repositories.FindByID := fun _ => mret (None, Some (External "connection refused"));
     repositories.FindByEmail := fun _ => mret (None, Some (External "connection refused")) |}.

(** The upload of the 10-byte file hello.txt to note n1. *)
Definition upload : FileUploadInput :=
  {| NoteID := "n1"; MessageID := "m1"; File := "0123456789";
     FileHeader_ := Some {| Filename := "hello.txt"; Size := 10; Header := ∅ |} |}.

Definition uploadKey : string := "attachments/n1/1700000000123_hello.txt".

Definition uploadRecord : Attachment :=
  {| aID := "id-0"; entities.NoteID := "n1"; entities.MessageID := "m1";
     URL := "https://notes.s3.amazonaws.com/attachments/n1/1700000000123_hello.txt";
     Name := "hello.txt"; Type_ := "application/octet-stream"; entities.Size := 10;
     S3Key := uploadKey |}.

End example.

(* ===================================================================== *)
(** ** The rest of the modelled files

    The functions of the same source files that the flows above do not
    call: the remaining methods of the user repository and of the user
    service, the role gate and the identity getters of the middleware, and
    the pagination helpers of internal/utils.  The trace records the calls
    of the flows above; the deletes and updates below change the tables
    without an entry in it. *)
(* ===================================================================== *)

Module gormx.
Import entities.

(** [db.Delete(&entities.User{}, "id = ?", id)] on a model with a
    soft-delete mark: the rows with that id leave the rows that queries
    see; the result carries the error and the number of rows affected, none
    when the statement fails. *)
Definition DeleteUser (id : string) : M (option error * Z) :=
  f ← nextFault;
  match f with
  | Some e => mret (Some e, 0)
  | None =>
      rows ← gets users;
      modify (set_users (List.filter (fun r => negb (String.eqb (ID r) id)) rows));;
      mret (None, Z.of_nat (length (List.filter (fun r => String.eqb (ID r) id) rows)))
  end.

(** The column default of the entity ([default:'user'] on Role): an insert
    of a record with an empty role stores the default and reads it back. *)
Definition withDefaults (u : User) : User :=
  if String.eqb (Role u) "" then
    {| ID := ID u; Email := Email u; PasswordHash := PasswordHash u;
       Username := Username u; Role := "user" |}
  else u.

(** [db.Save(user).Error]: with an empty primary key, a create (hooks and
    column defaults included); otherwise an update of all columns of the row
    with that key, refused when another row has the email, and, when no row
    has the key, an insert in a second statement. *)
Definition SaveUser (u : User) : M (User * option error) :=
  if String.eqb (ID u) "" then gorm.CreateUser (withDefaults u)
  else
    f ← nextFault;
    match f with
    | Some e => mret (u, Some e)
    | None =>
        rows ← gets users;
        let clash :=
          existsb (fun r => negb (String.eqb (ID r) (ID u)) && String.eqb (Email r) (Email u))
                  rows in
        if existsb (fun r => String.eqb (ID r) (ID u)) rows
        then
          if clash then mret (u, Some gorm.uniqueViolation)
          else
            modify (set_users (map (fun r => if String.eqb (ID r) (ID u) then u else r) rows));;
            mret (u, None)
        else
          f ← nextFault;
          match f with
          | Some e => mret (u, Some e)
          | None =>
              if clash then mret (u, Some gorm.uniqueViolation)
              else modify (set_users (rows ++ [withDefaults u]));; mret (withDefaults u, None)
          end
    end.

End gormx.

Module repositories_rest.
Import entities repositories.

(** The methods of the [UserRepository] interface that write to existing
    records.  ([List] is left out: its answer depends on how the database
    orders and limits rows.) *)
Record UserRepositoryRest : Type := {
  Update : User -> M (User * option error);
  SoftDelete : string -> M (option error)
}.

Definition userRepo_Update (user : User) : M (User * option error) :=
  '(user, err) ← gormx.SaveUser user;
  match err with
  | Some err => mret (user, Some err)
  | None => mret (user, None)
  end.

Definition userRepo_SoftDelete (id : string) : M (option error) :=
  '(_, rowsAffected) ← gormx.DeleteUser id;
  (* [if res.Error != nil] only logs *)
  if rowsAffected =? 0 then mret (Some ErrNotFound)
  else mret None.

Definition userRepoRest : UserRepositoryRest := {|
  Update := userRepo_Update;
  SoftDelete := userRepo_SoftDelete
|}.

End repositories_rest.

Module services_rest.
Import entities services.

Module UpdateUserInput.
Record t : Type := { Username : string; Email : string }.
End UpdateUserInput.

Definition withUsername (u : User) (username : string) : User :=
  {| ID := ID u; Email := Email u; PasswordHash := PasswordHash u;
     Username := username; Role := Role u |}.

Definition withEmail (u : User) (email : string) : User :=
  {| ID := ID u; Email := email; PasswordHash := PasswordHash u;
     Username := Username u; Role := Role u |}.

Definition GetByID (s : UserService) (id : string) : M (option User * option error) :=
  repositories.FindByID (repo s) id.

Definition Update (s : UserService) (rest : repositories_rest.UserRepositoryRest)
    (id : string) (in_ : UpdateUserInput.t) : M (option User * option error) :=
  '(user, err) ← repositories.FindByID (repo s) id;
  match err with
  | Some err => mret (None, Some (Wrapf "finding user by id" err))
  | None =>
      user ← deref user;
      let user :=
        if negb (String.eqb (UpdateUserInput.Username in_) "")
        then withUsername user (UpdateUserInput.Username in_) else user in
      let user :=
        if negb (String.eqb (UpdateUserInput.Email in_) "")
        then withEmail user (UpdateUserInput.Email in_) else user in
      '(user, err) ← repositories_rest.Update rest user;
      match err with
      | Some err => mret (None, Some err)
      | None => mret (Some user, None)
      end
  end.

Definition SoftDelete (s : UserService) (rest : repositories_rest.UserRepositoryRest)
    (id : string) : M (option error) :=
  err ← repositories_rest.SoftDelete rest id;
  match err with
  | Some err => mret (Some err)
  | None => mret None
  end.

End services_rest.

Module middleware_rest.
Import gin.

(** [utils.Forbidden]: a 403 error response. *)
Definition StatusForbidden : Z := 403.

Definition Forbidden {B : Type} (c : Context B) : Context B :=
  JSON c StatusForbidden
    {| utils.Success := false; utils.Data_ := utils.NoData; utils.Error_ := "forbidden" |}.

(** The set [RequireRole] builds from its arguments. *)
Definition allowedRoles (roles : list string) : gmap string unit :=
  foldl (fun allowed r => <[r := tt]> allowed) ∅ roles.

Definition nilNotString : string :=
  "interface conversion: interface {} is nil, not string".

(** RequireRole allows only users whose role is in the permitted list; the
    type assertion on the stored role panics when the context has none. *)
Definition RequireRole {B : Type} (roles : list string)
    (next : Context B -> M (Context B)) (c : Context B) : M (Context B) :=
  let allowed := allowedRoles roles in
  match Keys c !! middleware.ContextKeyRole with
  | None => panic nilNotString
  | Some role =>
      match allowed !! role with
      | None => mret (Abort (Forbidden c))
      | Some _ => next c
      end
  end.

(** GetUserID extracts the authenticated user's ID from the context. *)
Definition GetUserID {B : Type} (c : Context B) : string :=
  match Keys c !! middleware.ContextKeyUserID with
  | Some id => id
  | None => ""
  end.

(** GetRole extracts the authenticated user's role from the context. *)
Definition GetRole {B : Type} (c : Context B) : string :=
  match Keys c !! middleware.ContextKeyRole with
  | Some r => r
  | None => ""
  end.

End middleware_rest.

Module pagination.

(** Go's [int] on the 64-bit targets the service is built for. *)
Definition minInt : Z := - 2 ^ 63.
Definition maxInt : Z := 2 ^ 63 - 1.
Definition wrap (z : Z) : Z := (z + 2 ^ 63) mod 2 ^ 64 - 2 ^ 63.

(** [fmt.Sscanf(s, "%d", &v)] with [v] zero before the call: the value it
    leaves in [v], an [int]. *)
Class Scanner : Type := {
  Sscanf_d : string -> Z;
  Sscanf_d_int : forall s, minInt <= Sscanf_d s <= maxInt
}.

Section Pagination.
Context `{!Scanner}.

(** intQuery parses a query param safely; [query] is the query string of the
    request by key ([c.GetQuery]). *)
Definition intQuery (query : gmap string string) (key : string) (defaultVal : Z) : Z :=
  let v :=
    match query !! key with
    | Some s => Sscanf_d s
    | None => 0
    end in
  if v =? 0 then defaultVal else v.

(** Pagination parses page / pageSize query params with sane defaults. *)
Definition Pagination (query : gmap string string) : Z * Z * Z :=
  let page := intQuery query "page" 1 in
  let page := if page <? 1 then 1 else page in
  let pageSize := intQuery query "pageSize" 20 in
  let pageSize := if (pageSize <? 1) || (pageSize >? 100) then 20 else pageSize in
  let offset := wrap ((page - 1) * pageSize) in
  (page, pageSize, offset).

End Pagination.

Record Meta : Type := {
  Page : Z;
  PageSize : Z;
  TotalItems : Z;
  TotalPages : Z
}.

Definition divideByZero : string := "runtime error: integer divide by zero".

(** BuildMeta constructs a Meta struct for list responses; the division
    panics on a zero page size. *)
Definition BuildMeta (page pageSize total : Z) : outcome Meta :=
  if pageSize =? 0 then Panics divideByZero
  else
    let totalPages := wrap (Z.quot total pageSize) in
    let totalPages :=
      if negb (Z.rem total pageSize =? 0) then wrap (totalPages + 1) else totalPages in
    Returns {| Page := page; PageSize := pageSize; TotalItems := total;
               TotalPages := totalPages |}.

End pagination.

Module upload.
Import entities services.

(** The name [Create] gives the blob: the last element of the file name,
    spaces replaced. *)
Definition safeName (fh : FileHeader) : string :=
  gostrings.ReplaceAllSpace (filepath.Base (Filename fh)).

(** The storage key [Create] derives at time [now]. *)
Definition storageKey (in_ : FileUploadInput) (fh : FileHeader) (now : time.Time) : string :=
  "attachments/" +:+ NoteID in_ +:+ "/"
    +:+ gostrings.FormatInt (time.UnixMilli now) +:+ "_" +:+ safeName fh.

(** The content type [Create] declares for the blob. *)
Definition contentType (fh : FileHeader) : string :=
  if String.eqb (Header_Get (Header fh) "Content-Type") ""
  then "application/octet-stream"
  else Header_Get (Header fh) "Content-Type".

(** The object [Create] puts in the bucket. *)
Definition blob (in_ : FileUploadInput) (fh : FileHeader) : Object :=
  {| Body := File in_; ContentType := contentType fh; ContentLength := Size fh |}.

(** The URL [Upload] reports for a key. *)
Definition url (client : storage.Client) (key : string) : string :=
  "https://" +:+ storage.bucketName client +:+ ".s3.amazonaws.com/" +:+ key.

(** The record [Create] writes for a blob stored at time [now], under the
    id the database hook gives it. *)
Definition record (client : storage.Client) (in_ : FileUploadInput) (fh : FileHeader)
    (now : time.Time) (id : string) : Attachment :=
  {| aID := id;
     entities.NoteID := NoteID in_;
     entities.MessageID := MessageID in_;
     URL := url client (storageKey in_ fh now);
     Name := Filename fh;
     Type_ := contentType fh;
     entities.Size := Size fh;
     S3Key := storageKey in_ fh now |}.

Fixpoint contains (a : ascii) (s : string) : bool :=
  match s with
  | EmptyString => false
  | String b rest => Ascii.eqb a b || contains a rest
  end.

End upload.

Module more.
Import entities.

(** No failure is scheduled: the database and the object store answer. *)
Definition answering (w : World) : Prop := forall f, In f (faults w) -> f = None.

(** bcrypt accepts the password a hash was made from. *)
Definition bcryptCorrect `{!bcrypt.Lib} : Prop :=
  forall password cost salt,
    bcrypt.CompareHashAndPassword (bcrypt.Hash password cost salt) password = None.

(** The record [Update] saves: the non-empty fields of the request
    replace those of the record. *)
Definition edited (u : User) (in_ : services_rest.UpdateUserInput.t) : User :=
  {| ID := ID u;
     Email := if String.eqb (services_rest.UpdateUserInput.Email in_) ""
              then Email u else services_rest.UpdateUserInput.Email in_;
     PasswordHash := PasswordHash u;
     Username := if String.eqb (services_rest.UpdateUserInput.Username in_) ""
                 then Username u else services_rest.UpdateUserInput.Username in_;
     Role := Role u |}.

End more.
Import more.

Module scanner.
Import pagination.

(** A scanner for the examples: the value of a decimal numeral that fits an
    [int], and zero, the value [Sscanf] leaves untouched, for anything
    else. *)
Definition scan (s : string) : Z :=
  match NilEmpty.int_of_string s with
  | Some d =>
      let v := Z.of_int d in
      if (minInt <=? v) && (v <=? maxInt) then v else 0
  | None => 0
  end.

Lemma scan_int (s : string) : minInt <= scan s <= maxInt.
Proof.
  unfold scan. destruct (NilEmpty.int_of_string s) as [d |]; cbv zeta;
    [| unfold minInt, maxInt; lia].
  destruct (Z.leb_spec minInt (Z.of_int d)); cbn [andb];
    [| unfold minInt, maxInt; lia].
  destruct (Z.leb_spec (Z.of_int d) maxInt); [lia | unfold minInt, maxInt; lia].
Qed.

Definition refScanner : Scanner := {| Sscanf_d := scan; Sscanf_d_int := scan_int |}.

End scanner.

Module scenarios.
Import entities services example.

(** A second user, not yet registered. *)
Definition bob : RegisterInput.t :=
  {| RegisterInput.Email := "bob@example.com"; RegisterInput.Username := "bob";
     RegisterInput.Password := "battery staple" |}.

Definition bobLogin : LoginInput.t :=
  {| LoginInput.Email := "bob@example.com"; LoginInput.Password := "battery staple" |}.

Definition annLogin : LoginInput.t :=
  {| LoginInput.Email := "ann@example.com"; LoginInput.Password := "correct horse" |}.

(** An edit of the username only. *)
Definition rename : services_rest.UpdateUserInput.t :=
  {| services_rest.UpdateUserInput.Username := "annie";
     services_rest.UpdateUserInput.Email := "" |}.

Definition client : storage.Client := {| storage.bucketName := "notes" |}.

Definition helloHeader : FileHeader :=
  {| Filename := "hello.txt"; Size := 10; Header := ∅ |}.

(** The world after an earlier upload of hello.txt to note n1 in the same
    millisecond. *)
Definition uploaded : World :=
  set_bucket {[ uploadKey := {| Body := "earlier"; ContentType := "text/plain";
                                ContentLength := 7 |} ]}
    (set_attachments [uploadRecord] world).

(** The query string [?page=3&pageSize=50]. *)
Definition thirdPage : gmap string string :=
  {[ "page" := "3"; "pageSize" := "50" ]}.

End scenarios.

(* ===================================================================== *)
(** ** The monad *)
(* ===================================================================== *)

Lemma run_ret {A : Type} (a : A) (w : World) : run (mret a) w = (Returns a, w).
Proof. reflexivity. Qed.

Lemma run_bind {A B : Type} (c : M A) (k : A -> M B) (w : World) :
  run (c ≫= k) w =
  match run c w with
  | (Returns a, w') => run (k a) w'
  | (Panics msg, w') => (Panics msg, w')
  end.
Proof. reflexivity. Qed.

Lemma run_bind_returns {A B : Type} (c : M A) (k : A -> M B) (w w' : World) (a : A) :
  run c w = (Returns a, w') -> run (c ≫= k) w = run (k a) w'.
Proof. intros H. rewrite run_bind, H. reflexivity. Qed.

Lemma run_bind_panics {A B : Type} (c : M A) (k : A -> M B) (w w' : World) (msg : string) :
  run c w = (Panics msg, w') -> run (c ≫= k) w = (Panics msg, w').
Proof. intros H. rewrite run_bind, H. reflexivity. Qed.

Lemma run_Now (w : World) : run Now w = (Returns (reading w), tick w).
Proof. reflexivity. Qed.

Lemma run_emit (e : Event) (w : World) :
  run (emit e) w = (Returns tt, set_trace (trace w ++ [e]) w).
Proof. reflexivity. Qed.

Lemma run_nextFault (w : World) :
  run nextFault w = (Returns (upcoming w), set_faults (tl (faults w)) w).
Proof. reflexivity. Qed.

Lemma run_random (w : World) :
  run random w = (Returns (entropy w (drawn w)), set_drawn (S (drawn w)) w).
Proof. reflexivity. Qed.

Lemma run_gets {A : Type} (f : World -> A) (w : World) : run (gets f) w = (Returns (f w), w).
Proof. reflexivity. Qed.

Lemma run_modify (f : World -> World) (w : World) : run (modify f) w = (Returns tt, f w).
Proof. reflexivity. Qed.

Lemma run_panic {A : Type} (msg : string) (w : World) :
  run (panic (A := A) msg) w = (Panics msg, w).
Proof. reflexivity. Qed.

(** One pass of symbolic execution: split binds, run the primitive at the
    head, and reduce the matches this exposes. *)
Ltac mrun :=
  repeat first
    [ rewrite run_bind
    | rewrite run_ret
    | rewrite run_nextFault
    | rewrite run_random
    | rewrite run_emit
    | rewrite run_Now
    | rewrite run_gets
    | rewrite run_modify
    | rewrite run_panic
    | progress cbv beta iota ].

(** Simplification of the fields of an updated world. *)
Ltac fields :=
  cbn [trace attachments users bucket faults clock ticks entropy drawn
       set_trace set_attachments set_users set_bucket set_faults set_ticks
       set_drawn tick] in *.

(* ===================================================================== *)
(** ** Token issue and verification *)
(* ===================================================================== *)

Section Tokens.
Context `{!jwt.Lib auth.Claims}.
Import auth.

Lemma generate_run (m : Manager) (userID role : string) (tt : TokenType)
    (ttl : time.Duration) (w : World) :
  run (generate m userID role tt ttl) w
  = (Returns (signed (secret m) (issuedClaims userID role tt (reading w) ttl), None),
     tick w).
Proof. reflexivity. Qed.

Lemma Verify_own_signature (m : jwt.SigningMethod) (key text : string) :
  jwt.isHMAC m = true -> jwt.Verify m text (jwt.HMAC m key text) key = None.
Proof.
  intros Hm. unfold jwt.Verify. rewrite Hm, String.eqb_refl. reflexivity.
Qed.

(** What [Parse] answers for a token it signed itself: the claims while the
    validator accepts them, otherwise the expiry error of the library or
    the invalid-token error. *)
Lemma Parse_signed (m : Manager) (c : Claims) (w : World) :
  run (Parse m (signed (secret m) c)) w
  = (Returns
       match jwt.Validate (reading w) (RegisteredClaims c) with
       | None => (Some c, None)
       | Some e =>
           if errors.Is (Multi (Sentinel jwt_ErrTokenInvalidClaims) e) jwt_ErrTokenExpired
           then (None, Some (Sentinel jwt_ErrTokenExpired))
           else (None, Some ErrTokenInvalid)
       end,
     tick w).
Proof.
  unfold Parse, signed, jwt.ParseWithClaims.
  rewrite jwt.Split_Compact. cbn [keyFunc jwt.Method jwt.isHMAC].
  rewrite Verify_own_signature by reflexivity.
  rewrite !run_bind, run_Now. cbn [jwt.Registered Claims_jwt].
  destruct (jwt.Validate (reading w) (RegisteredClaims c)) as [e |]; cbn.
  - destruct (errors.Is e jwt_ErrTokenExpired); reflexivity.
  - reflexivity.
Qed.

End Tokens.

Section TokenVerification.
Context `{!jwt.Lib auth.Claims}.
Import auth.

Lemma Verify_result (m : jwt.SigningMethod) (text sig key : string) :
  jwt.Verify m text sig key = None
  \/ exists msg, jwt.Verify m text sig key = Some (External msg).
Proof.
  unfold jwt.Verify.
  destruct (jwt.isHMAC m); [destruct (String.eqb sig (jwt.HMAC m key text)) |]; eauto.
Qed.

Lemma Verify_foreign_key (m : jwt.SigningMethod) (key key' text : string) :
  keyBinding -> key' <> key ->
  exists msg, jwt.Verify m text (jwt.HMAC m key' text) key = Some (External msg).
Proof.
  intros Hbind Hne.
  destruct (Verify_result m text (jwt.HMAC m key' text) key) as [Hok | Hbad]; [| exact Hbad].
  exfalso. unfold jwt.Verify in Hok.
  destruct (jwt.isHMAC m); [| discriminate].
  destruct (String.eqb_spec (jwt.HMAC m key' text) (jwt.HMAC m key text)) as [Heq | _];
    [| discriminate].
  apply Hbind in Heq. contradiction.
Qed.

(** A token that [Parse] accepts splits into the claims it returns. *)
Lemma Parse_accepts (m : Manager) (tokenStr : string) (c : Claims) (w w1 : World) :
  run (Parse m tokenStr) w = (Returns (Some c, None), w1) ->
  exists mth text sig,
    jwt.Split tokenStr = Some (mth, c, text, sig)
    /\ jwt.Verify mth text sig (secret m) = None
    /\ jwt.Validate (reading w) (RegisteredClaims c) = None
    /\ w1 = tick w.
Proof.
  unfold Parse, jwt.ParseWithClaims.
  destruct (jwt.Split tokenStr) as [[[[mth c'] text] sig] |]; [| intros [= ]].
  unfold keyFunc. cbn [jwt.Method].
  destruct (jwt.isHMAC mth).
  - destruct (jwt.Verify mth text sig (secret m)) as [e |] eqn:Hver.
    + rewrite run_bind, run_ret. cbn.
      destruct (errors.Is e jwt_ErrTokenExpired); intros [= ].
    + rewrite !run_bind, run_Now. cbn [jwt.Registered Claims_jwt].
      destruct (jwt.Validate (reading w) (RegisteredClaims c')) as [e |] eqn:Hval.
      * rewrite run_ret. cbn.
        destruct (errors.Is e jwt_ErrTokenExpired); intros [= ].
      * intros [= <- <-]. exists mth, text, sig. auto.
  - intros [= ].
Qed.

(** [Parse] never panics, and it answers in one of three ways. *)
Lemma Parse_cases (m : Manager) (tokenStr : string) (w : World) :
  (exists c w', run (Parse m tokenStr) w = (Returns (Some c, None), w'))
  \/ (exists w', run (Parse m tokenStr) w
                 = (Returns (None, Some (Sentinel jwt_ErrTokenExpired)), w'))
  \/ (exists w', run (Parse m tokenStr) w = (Returns (None, Some ErrTokenInvalid), w')).
Proof.
  unfold Parse, jwt.ParseWithClaims.
  destruct (jwt.Split tokenStr) as [[[[mth c] text] sig] |];
    [| right; right; eexists; reflexivity].
  destruct (keyFunc m _) as [key | e] eqn:Hkey.
  - destruct (jwt.Verify mth text sig key) as [e |] eqn:Hver.
    + rewrite run_bind, run_ret. cbn.
      destruct (errors.Is e jwt_ErrTokenExpired); eauto.
    + rewrite !run_bind, run_Now.
      destruct (jwt.Validate (reading w) (jwt.Registered c)) as [e |] eqn:Hval.
      * rewrite run_ret. cbn.
        destruct (errors.Is e jwt_ErrTokenExpired); eauto.
      * left. do 2 eexists. reflexivity.
  - rewrite run_bind, run_ret. cbn.
    destruct (errors.Is e jwt_ErrTokenExpired); eauto.
Qed.

(** C4 -- round trip of an access token.  A token issued by
    [GenerateAccessToken] for any subject and role carries, as its expiry,
    the issue time plus the access TTL truncated to the second.  Parsed by a
    manager with the same secret at a time before that expiry it yields
    claims with the same subject, the same role and the kind access; parsed
    at the expiry or later it fails with the expiry error
    ([jwt.ErrTokenExpired], the value [Parse] returns for an expired token)
    and yields no claims. *)
Theorem access_token_round_trip (m : Manager) (userID role : string) (w : World)
    (ttl ttl' : time.Duration) (w' : World) :
  let verifier := NewManager (secret m) ttl ttl' in
  let expiry := jwt.NewNumericDate (time.Add (reading w) (accessTTL m)) in
  exists token claims,
    run (GenerateAccessToken m userID role) w = (Returns (token, None), tick w)
    /\ UserID claims = userID
    /\ Role claims = role
    /\ TokenType_ claims = AccessToken
    /\ jwt.ExpiresAt (RegisteredClaims claims) = Some expiry
    /\ run (Parse verifier token) w'
       = (Returns (if time.Before (reading w') expiry
                   then (Some claims, None)
                   else (None, Some (Sentinel jwt_ErrTokenExpired))),
          tick w').
Proof.
  intros verifier expiry.
  exists (signed (secret m) (issuedClaims userID role AccessToken (reading w) (accessTTL m))).
  exists (issuedClaims userID role AccessToken (reading w) (accessTTL m)).
  split; [apply generate_run |].
  repeat (split; [reflexivity |]).
  change (secret m) with (secret verifier).
  rewrite Parse_signed. unfold jwt.Validate.
  cbn [issuedClaims RegisteredClaims jwt.ExpiresAt jwt.NotBefore].
  fold expiry. destruct (time.Before (reading w') expiry); reflexivity.
Qed.

(** C7 -- a token signed under another secret.  With a MAC that binds the
    key, every compact token whose signature was made under a secret
    different from the manager's is refused by [Parse]: the result is the
    invalid-token error and no claims, at any time, whatever the claims
    and the signing method in the token. *)
Theorem foreign_secret_rejected (m : Manager) (key' tokenStr : string) (w : World) :
  keyBinding ->
  key' <> secret m ->
  signedUnder key' tokenStr ->
  run (Parse m tokenStr) w = (Returns (None, Some ErrTokenInvalid), w).
Proof.
  intros Hbind Hne (mth & c & text & Hsplit).
  unfold Parse, jwt.ParseWithClaims. rewrite Hsplit.
  unfold keyFunc. cbn [jwt.Method].
  destruct (jwt.isHMAC mth) eqn:Hm; [| reflexivity].
  destruct (Verify_foreign_key mth (secret m) key' text Hbind Hne) as [msg Hver].
  rewrite Hver. reflexivity.
Qed.

End TokenVerification.

(* ===================================================================== *)
(** ** The access-token gate *)
(* ===================================================================== *)

Lemma lower_space (a : ascii) : gostrings.lower a = gostrings.space -> a = gostrings.space.
Proof.
  destruct a as [[] [] [] [] [] [] [] []]; vm_compute; intros H; first [reflexivity | discriminate H].
Qed.

Lemma cutSpace_ToLower (s : string) :
  gostrings.cutSpace (gostrings.ToLower s) = None -> gostrings.cutSpace s = None.
Proof.
  induction s as [| a s IH]; cbn [gostrings.ToLower gostrings.cutSpace]; [reflexivity |].
  destruct (Ascii.eqb_spec (gostrings.lower a) gostrings.space) as [Hl | Hl]; [discriminate |].
  destruct (Ascii.eqb_spec a gostrings.space) as [Ha | Ha].
  - subst a. exfalso. apply Hl. reflexivity.
  - destruct (gostrings.cutSpace (gostrings.ToLower s)) as [[? ?] |]; [discriminate |].
    intros _. rewrite IH; reflexivity.
Qed.

Lemma cutSpace_scheme (scheme tok : string) :
  gostrings.cutSpace scheme = None ->
  gostrings.cutSpace (scheme +:+ String gostrings.space tok) = Some (scheme, tok).
Proof.
  induction scheme as [| a s IH].
  - reflexivity.
  - change (String a s +:+ String gostrings.space tok)
      with (String a (s +:+ String gostrings.space tok)).
    cbn [gostrings.cutSpace].
    destruct (Ascii.eqb a gostrings.space); [discriminate |].
    destruct (gostrings.cutSpace s) as [[? ?] |]; [discriminate |].
    intros _. rewrite IH; reflexivity.
Qed.

(** A header made of a scheme that reads "bearer" in any letter case, one
    space, and a token splits into the scheme and the token. *)
Lemma SplitN2_bearer (scheme tok : string) :
  gostrings.EqualFold scheme "bearer" = true ->
  gostrings.SplitN2 (scheme +:+ " " +:+ tok) = [scheme; tok].
Proof.
  unfold gostrings.EqualFold. intros H. apply String.eqb_eq in H.
  unfold gostrings.SplitN2.
  change (" " +:+ tok) with (String gostrings.space tok).
  rewrite cutSpace_scheme; [reflexivity |].
  apply cutSpace_ToLower. rewrite H. reflexivity.
Qed.

Lemma bearer_header_nonempty (scheme tok : string) :
  String.eqb (scheme +:+ " " +:+ tok) "" = false.
Proof. destruct scheme; reflexivity. Qed.

Section Gate.
Context `{!jwt.Lib auth.Claims} {B : Type}.
Import gin responses middleware.

(** What the gate does once the header has given it a token. *)
Lemma Authenticate_bearer (m : auth.Manager) (next : Context B -> M (Context B))
    (c : Context B) (scheme tok : string) (w : World) :
  Authorization c = scheme +:+ " " +:+ tok ->
  gostrings.EqualFold scheme "bearer" = true ->
  run (Authenticate m next c) w
  = match run (auth.Parse m tok) w with
    | (Returns (_, Some err), w1) =>
        (Returns (Abort (if errors.same err auth_ErrTokenExpired
                         then Unauthorized c "token has expired"
                         else Unauthorized c "invalid token")), w1)
    | (Returns (Some claims, None), w1) =>
        if negb (String.eqb (auth.TokenType_ claims) auth.AccessToken)
        then (Returns (Abort (Unauthorized c "invalid token type")), w1)
        else run (next (Set_ (Set_ c ContextKeyUserID (auth.UserID claims))
                             ContextKeyRole (auth.Role claims))) w1
    | (Returns (None, None), w1) => (Panics nilDereference, w1)
    | (Panics msg, w1) => (Panics msg, w1)
    end.
Proof.
  intros Hh Hs. unfold Authenticate.
  rewrite Hh, bearer_header_nonempty, (SplitN2_bearer _ _ Hs).
  cbn [length Nat.eqb negb orb nth]. rewrite Hs. cbn [negb].
  rewrite run_bind.
  destruct (run (auth.Parse m tok) w) as [[[[claims |] [err |]] | msg] w1];
    try reflexivity.
  cbn [deref]. rewrite run_bind, run_ret.
  destruct (negb (String.eqb (auth.TokenType_ claims) auth.AccessToken)); reflexivity.
Qed.

(** C6 -- a refresh token at the access-token gate.  A request whose
    Authorization header presents, under the bearer scheme, a token whose
    claims say kind refresh is answered with 401 and aborted, the rest of
    the handler chain is not run, and the request context receives no
    identity, whatever the signature and the expiry of the token.  When the
    token is one that [Parse] accepts (valid signature, not expired), the
    answer carries the text "invalid token type". *)
Theorem refresh_token_rejected_by_gate (m : auth.Manager)
    (next : Context B -> M (Context B)) (c : Context B) (scheme tok : string)
    (mth : jwt.SigningMethod) (claims : auth.Claims) (text sig : string) (w : World) :
  Authorization c = scheme +:+ " " +:+ tok ->
  gostrings.EqualFold scheme "bearer" = true ->
  jwt.Split tok = Some (mth, claims, text, sig) ->
  auth.TokenType_ claims = auth.RefreshToken ->
  exists c' w' msg,
    run (Authenticate m next c) w = (Returns c', w')
    /\ Written c'
       = Some (StatusUnauthorized,
               {| utils.Success := false; utils.Data_ := utils.NoData;
                  utils.Error_ := msg |})
    /\ Aborted c' = true
    /\ Keys c' = Keys c
    /\ (forall w1,
           run (auth.Parse m tok) w = (Returns (Some claims, None), w1) ->
           msg = "invalid token type" /\ w' = w1).
Proof.
  intros Hh Hs Hsplit Hkind.
  rewrite (Authenticate_bearer m next c scheme tok w Hh Hs).
  destruct (Parse_cases m tok w) as [(c0 & w1 & Hp) | [(w1 & Hp) | (w1 & Hp)]]; rewrite Hp.
  - destruct (Parse_accepts m tok c0 w w1 Hp) as (mth0 & text0 & sig0 & Hsplit0 & _).
    rewrite Hsplit in Hsplit0. injection Hsplit0 as _ <- _ _.
    rewrite Hkind. cbn [negb String.eqb Ascii.eqb Bool.eqb auth.RefreshToken auth.AccessToken].
    do 3 eexists. do 4 (split; [reflexivity |]).
    intros w2 [= <-]. split; reflexivity.
  - do 3 eexists. do 4 (split; [reflexivity |]). intros w2 [= ].
  - do 3 eexists. do 4 (split; [reflexivity |]). intros w2 [= ].
Qed.

(** An expired token at the gate: [Parse] hands back the expiry error of
    the library, which is not the [auth.ErrTokenExpired] the gate switches
    on, so the answer carries the text "invalid token". *)
Lemma expired_token_at_gate (m : auth.Manager) (next : Context B -> M (Context B))
    (c : Context B) (scheme tok : string) (w w1 : World) :
  Authorization c = scheme +:+ " " +:+ tok ->
  gostrings.EqualFold scheme "bearer" = true ->
  run (auth.Parse m tok) w = (Returns (None, Some (Sentinel jwt_ErrTokenExpired)), w1) ->
  run (Authenticate m next c) w = (Returns (Abort (Unauthorized c "invalid token")), w1).
Proof.
  intros Hh Hs Hp.
  rewrite (Authenticate_bearer m next c scheme tok w Hh Hs), Hp. reflexivity.
Qed.

(** The gate as a whole: whatever the request, either it is answered with
    401, aborted, and left without identity, or the header carried a token
    that [Parse] accepts and whose kind is access, and the chain goes on
    with that token's subject and role. *)
Lemma Authenticate_cases (m : auth.Manager) (next : Context B -> M (Context B))
    (c : Context B) (w : World) :
  (exists c' w' msg,
      run (Authenticate m next c) w = (Returns c', w')
      /\ Written c'
         = Some (StatusUnauthorized,
                 {| utils.Success := false; utils.Data_ := utils.NoData;
                    utils.Error_ := msg |})
      /\ Aborted c' = true
      /\ Keys c' = Keys c)
  \/ (exists tok claims w1,
         run (auth.Parse m tok) w = (Returns (Some claims, None), w1)
         /\ auth.TokenType_ claims = auth.AccessToken
         /\ run (Authenticate m next c) w
            = run (next (Set_ (Set_ c ContextKeyUserID (auth.UserID claims))
                              ContextKeyRole (auth.Role claims))) w1).
Proof.
  unfold Authenticate.
  destruct (String.eqb (Authorization c) "").
  { left. do 3 eexists. split; [reflexivity |]. repeat split. }
  destruct (negb (Nat.eqb (length (gostrings.SplitN2 (Authorization c))) 2)
            || negb (gostrings.EqualFold (nth 0 (gostrings.SplitN2 (Authorization c)) "") "bearer")).
  { left. do 3 eexists. split; [reflexivity |]. repeat split. }
  set (tok := nth 1 (gostrings.SplitN2 (Authorization c)) "").
  rewrite run_bind.
  destruct (Parse_cases m tok w) as [(claims & w1 & Hp) | [(w1 & Hp) | (w1 & Hp)]]; rewrite Hp.
  - cbn [deref]. rewrite run_bind, run_ret.
    destruct (String.eqb_spec (auth.TokenType_ claims) auth.AccessToken) as [Hk | Hk]; cbn [negb].
    + right. exists tok, claims, w1. auto.
    + left. do 3 eexists. split; [reflexivity |]. repeat split.
  - left. do 3 eexists. split; [reflexivity |]. repeat split.
  - left. do 3 eexists. split; [reflexivity |]. repeat split.
Qed.

End Gate.

(* ===================================================================== *)
(** ** The upload saga *)
(* ===================================================================== *)


Section Saga.
Import entities services saga.

Lemma Create_without_header (s : AttachmentService) (in_ : FileUploadInput) (w : World) :
  FileHeader_ in_ = None ->
  run (Create s in_) w = (Panics nilDereference, w).
Proof. intros H. unfold Create. rewrite H. reflexivity. Qed.

Lemma Upload_effect (client : storage.Client) (in_ : storage.UploadInput) (w : World) :
  forall r w',
    run (storage.Upload client in_) w = (r, w') ->
    attachments w' = attachments w
    /\ ((exists e,
            r = Returns (None, Some (Wrapf ("s3 PutObject " +:+ storage.quoted (storage.Key in_)) e))
            /\ trace w' = trace w ++ [EvPutObject (storage.Key in_) (Some e)])
        \/ (exists out,
               r = Returns (Some out, None)
               /\ trace w' = trace w ++ [EvPutObject (storage.Key in_) None])).
Proof.
  intros r w'. unfold storage.Upload, s3.PutObject. mrun.
  destruct (upcoming w) as [e |]; mrun; intros [= <- <-]; fields;
    (split; [reflexivity |]); eauto.
Qed.

Lemma Delete_effect (client : storage.Client) (key : string) (w : World) :
  forall r w',
    run (storage.Delete client key) w = (r, w') ->
    attachments w' = attachments w
    /\ exists del res,
         r = Returns res /\ trace w' = trace w ++ [EvDeleteObject key del].
Proof.
  intros r w'. unfold storage.Delete, s3.DeleteObject. mrun.
  destruct (upcoming w) as [e |]; mrun; intros [= <- <-]; fields;
    (split; [reflexivity |]); eauto.
Qed.

Lemma attachmentRepo_Create_effect (a : Attachment) (w : World) :
  forall r w',
    run (repositories.attachmentRepo_Create a) w = (r, w') ->
    exists a' res,
      r = Returns (a', res)
      /\ S3Key a' = S3Key a
      /\ trace w' = trace w ++ [EvAttachmentCreate a' res]
      /\ attachments w'
         = match res with
           | None => attachments w ++ [a']
           | Some _ => attachments w
           end.
Proof.
  intros r w'.
  unfold repositories.attachmentRepo_Create, gorm.CreateAttachment, gorm.newUUID.
  destruct (String.eqb (aID a) ""); mrun;
    match goal with
    | |- context [upcoming ?x] => destruct (upcoming x) as [e |]
    end; mrun; fields;
    try match goal with
    | |- context [existsb ?f ?l] => destruct (existsb f l)
    end; mrun; intros [= <- <-]; fields;
    do 2 eexists; repeat split; reflexivity.
Qed.

Lemma Create_shape (client : storage.Client) (in_ : FileUploadInput)
    (fh : FileHeader) (w : World) :
  FileHeader_ in_ = Some fh ->
  forall r w',
    run (Create (service client) in_) w = (r, w') ->
    exists new,
      trace w' = trace w ++ new /\ shape (attachments w) new r (attachments w').
Proof.
  intros Hfh r w'. unfold Create, service. rewrite Hfh.
  cbn [deref attRepo s3Client repositories.CreateAttachment
       repositories.NewAttachmentRepository].
  mrun.
  match goal with
  | |- context [run (storage.Upload ?c ?i) ?x] =>
      destruct (run (storage.Upload c i) x) as [r1 w1] eqn:Hup;
      apply Upload_effect in Hup; destruct Hup as [Hatt1 Hup]
  end.
  cbn [storage.Key] in Hup. fields.
  destruct Hup as [(e & -> & Htr1) | (out & -> & Htr1)]; mrun.
  - intros [= <- <-]. eexists. split; [exact Htr1 |].
    rewrite Hatt1. constructor.
  - cbn [deref]. mrun.
    match goal with
    | |- context [run (repositories.attachmentRepo_Create ?a) ?x] =>
        destruct (run (repositories.attachmentRepo_Create a) x) as [r2 w2] eqn:Hcr;
        apply attachmentRepo_Create_effect in Hcr;
        destruct Hcr as (att & res & -> & Hkey & Htr2 & Hatt2)
    end.
    cbn [S3Key] in Hkey. rewrite <- Hkey in *. mrun.
    destruct res as [e |]; mrun.
    + match goal with
      | |- context [run (storage.Delete ?c ?k) ?x] =>
          destruct (run (storage.Delete c k) x) as [r3 w3] eqn:Hdel;
          apply Delete_effect in Hdel;
          destruct Hdel as (Hatt3 & del & res3 & -> & Htr3)
      end.
      mrun. intros [= <- <-].
      eexists. split.
      * rewrite Htr3, Htr2, Htr1, <- !app_assoc. reflexivity.
      * rewrite Hatt3, Hatt2, Hatt1. cbn [app]. constructor.
    + intros [= <- <-].
      eexists. split.
      * rewrite Htr2, Htr1, <- !app_assoc. reflexivity.
      * rewrite Hatt2, Hatt1. cbn [app]. constructor.
Qed.

End Saga.

Section SagaProperties.
Import entities services saga.

(** Every run of [Create]: the calls it appends to the trace, and, when the
    request has a file header, the shape of the run. *)
Lemma Create_runs (client : storage.Client) (in_ : FileUploadInput) (w : World) :
  exists new,
    trace (snd (run (Create (service client) in_) w)) = trace w ++ new
    /\ (new = []
        \/ shape (attachments w) new
             (fst (run (Create (service client) in_) w))
             (attachments (snd (run (Create (service client) in_) w)))).
Proof.
  destruct (FileHeader_ in_) as [fh |] eqn:Hfh.
  - destruct (run (Create (service client) in_) w) as [r w'] eqn:Hrun.
    destruct (Create_shape client in_ fh w Hfh r w' Hrun) as (new & Htr & Hsh).
    exists new. split; [exact Htr | right; exact Hsh].
  - rewrite (Create_without_header _ _ w Hfh). exists []. split; [| left; reflexivity].
    cbn [snd]. rewrite app_nil_r. reflexivity.
Qed.

(** C3 -- compensation after a failed metadata write.  In a run of
    [Create] in which the blob upload to [key] succeeded and the write of
    the attachment record failed with [e], the service then calls the
    delete of the object store on that same key, makes no other call, leaves
    the attachments table as it was, and returns the write error [e]
    (wrapped with the text "saving attachment metadata"), whatever the
    outcome [del] of the delete. *)
Theorem metadata_failure_is_compensated (client : storage.Client)
    (in_ : FileUploadInput) (w : World) (new : list Event) (key : string)
    (att : Attachment) (e : error) :
  trace (snd (run (Create (service client) in_) w)) = trace w ++ new ->
  In (EvPutObject key None) new ->
  In (EvAttachmentCreate att (Some e)) new ->
  (exists del,
      new = [EvPutObject key None; EvAttachmentCreate att (Some e);
             EvDeleteObject key del])
  /\ S3Key att = key
  /\ attachments (snd (run (Create (service client) in_) w)) = attachments w
  /\ fst (run (Create (service client) in_) w)
     = Returns (None, "", Some (Wrapf "saving attachment metadata" e)).
Proof.
  intros Htr Hput Hcreate.
  destruct (Create_runs client in_ w) as (new' & Htr' & Hsh).
  rewrite Htr in Htr'. apply app_inv_head in Htr'. subst new'.
  destruct Hsh as [-> | Hsh]; [destruct Hput |].
  inversion Hsh as [k e0 Hnew Hr Hatts | a p Hnew Hr Hatts | a e0 del Hnew Hr Hatts];
    subst new; cbn [In] in Hput, Hcreate.
  - destruct Hcreate as [Hc | []]. discriminate Hc.
  - destruct Hcreate as [Hc | [Hc | []]]; discriminate Hc.
  - destruct Hcreate as [Hc | [Hc | [Hc | []]]]; try discriminate Hc.
    injection Hc as -> ->.
    destruct Hput as [Hp | [Hp | [Hp | []]]]; try discriminate Hp.
    injection Hp as <-.
    repeat split; eauto.
Qed.

(** C5 -- order of the side effects.  In every run of [Create], with [new]
    the calls the run makes in order: a write of the attachment record is
    preceded by a successful blob write; when a blob write failed, the run
    makes no write of the attachment record and no compensating delete; and
    a compensating delete comes directly after a failed write of the
    attachment record and is the last call of the run. *)
Theorem upload_saga_order (client : storage.Client) (in_ : FileUploadInput) (w : World) :
  exists new : list Event,
    trace (snd (run (Create (service client) in_) w)) = trace w ++ new
    /\ (forall (i : nat) (ev : Event),
           new !! i = Some ev -> isMetadataWrite ev = true ->
           exists (j : nat) (key : string),
             (j < i)%nat /\ new !! j = Some (EvPutObject key None))
    /\ (forall ev : Event,
           In ev new -> isFailedBlobWrite ev = true ->
           forall ev' : Event,
             In ev' new -> isMetadataWrite ev' = false /\ isCompensation ev' = false)
    /\ (forall (i : nat) (ev : Event),
           new !! i = Some ev -> isCompensation ev = true ->
           new !! S i = None
           /\ exists (j : nat) (ev' : Event),
                i = S j /\ new !! j = Some ev' /\ isFailedMetadataWrite ev' = true).
Proof.
  destruct (Create_runs client in_ w) as (new & Htr & Hsh).
  exists new. split; [exact Htr |].
  assert (Hcases :
    new = []
    \/ (exists key e, new = [EvPutObject key (Some e)])
    \/ (exists a, new = [EvPutObject (S3Key a) None; EvAttachmentCreate a None])
    \/ (exists a e del,
           new = [EvPutObject (S3Key a) None; EvAttachmentCreate a (Some e);
                  EvDeleteObject (S3Key a) del])).
  { destruct Hsh as [-> | Hsh]; [auto |].
    inversion Hsh; subst; eauto 8. }
  clear Htr Hsh.
  destruct Hcases as [-> | [(key & e & ->) | [(a & ->) | (a & e & del & ->)]]];
    (split; [| split]).
  all: try (intros i ev Hl Hev;
            destruct i as [| [| [| i]]]; cbn in Hl; try discriminate Hl;
            injection Hl as <-; try discriminate Hev).
  all: try (intros ev Hin Hev ev' Hin'; cbn [In] in Hin, Hin';
            repeat match goal with
                   | H : _ \/ _ |- _ => destruct H
                   | H : False |- _ => destruct H
                   end; subst; try discriminate Hev; split; reflexivity).
  - exists 0%nat, (S3Key a). split; [lia | reflexivity].
  - exists 0%nat, (S3Key a). split; [lia | reflexivity].
  - split; [reflexivity |].
    exists 1%nat, (EvAttachmentCreate a (Some e)). repeat split.
Qed.

End SagaProperties.

(* ===================================================================== *)
(** ** The user repository and the user service *)
(* ===================================================================== *)

Section Repository.
Import entities repositories.

Lemma FirstUser_run (colname : string) (column : User -> string) (value : string)
    (w : World) :
  let row := List.find (fun r => String.eqb (column r) value) (users w) in
  run (gorm.FirstUser colname column value) w
  = (Returns (match upcoming w, row with
              | None, Some r => r
              | _, _ => zeroUser
              end,
              firstAnswer row w),
     answered (EvUserFirst colname value (firstAnswer row w)) w).
Proof.
  intros row. unfold gorm.FirstUser, firstAnswer. mrun.
  destruct (upcoming w) as [e |]; mrun; [reflexivity |].
  fields. fold row. destruct row; mrun; reflexivity.
Qed.

Lemma upcoming_External (w : World) (e : error) :
  upcoming w = Some e -> exists msg, e = External msg.
Proof.
  unfold upcoming. destruct (hd None (faults w)); intros [= <-]; eauto.
Qed.

Lemma upcoming_Is (w : World) (e : error) (target : sentinel) :
  upcoming w = Some e -> errors.Is e target = false.
Proof. intros H. apply upcoming_External in H as [msg ->]. reflexivity. Qed.

(** [FindByEmail], case by case: the zero-value record with a nil error
    when the query fails; otherwise the row when there is one, and the
    repository's not-found error when there is none. *)
Lemma userRepo_FindByEmail_run (email : string) (w : World) :
  run (userRepo_FindByEmail email) w
  = (Returns match upcoming w with
             | Some _ => (Some zeroUser, None)
             | None =>
                 match byEmail email w with
                 | Some r => (Some r, None)
                 | None => (None, Some ErrNotFound)
                 end
             end,
     answered (EvUserFirst "email" email (firstAnswer (byEmail email w) w)) w).
Proof.
  unfold userRepo_FindByEmail. rewrite run_bind, FirstUser_run. fold (byEmail email w).
  unfold firstAnswer.
  destruct (upcoming w) as [e |] eqn:Hup; cbv beta iota; cbn [isErr].
  - rewrite (upcoming_Is w e _ Hup). reflexivity.
  - destruct (byEmail email w); reflexivity.
Qed.

Lemma userRepo_FindByID_run (id : string) (w : World) :
  run (userRepo_FindByID id) w
  = (Returns match upcoming w with
             | Some _ => (Some zeroUser, None)
             | None =>
                 match byID id w with
                 | Some r => (Some r, None)
                 | None => (None, Some ErrNotFound)
                 end
             end,
     answered (EvUserFirst "id" id (firstAnswer (byID id w) w)) w).
Proof.
  unfold userRepo_FindByID. rewrite run_bind, FirstUser_run. fold (byID id w).
  unfold firstAnswer.
  destruct (upcoming w) as [e |] eqn:Hup; cbv beta iota; cbn [isErr].
  - rewrite (upcoming_Is w e _ Hup). reflexivity.
  - destruct (byID id w); reflexivity.
Qed.

Lemma byEmail_found (email : string) (w : World) (u : User) :
  In u (users w) -> Email u = email -> exists r, byEmail email w = Some r.
Proof.
  intros Hin Hmail. unfold byEmail.
  destruct (find _ (users w)) as [r |] eqn:Hfind; [eauto |].
  apply (find_none _ _ Hfind) in Hin. cbv beta in Hin.
  rewrite Hmail, String.eqb_refl in Hin. discriminate.
Qed.

Lemma byEmail_absent (email : string) (w : World) :
  (forall u, In u (users w) -> Email u <> email) -> byEmail email w = None.
Proof.
  intros Hno. unfold byEmail.
  destruct (find _ (users w)) as [r |] eqn:Hfind; [| reflexivity].
  apply find_some in Hfind as [Hin Heq]. apply String.eqb_eq in Heq.
  exfalso. exact (Hno r Hin Heq).
Qed.

Lemma userRepo_Create_effect (u0 : User) (w : World) :
  forall r w',
    run (userRepo_Create u0) w = (r, w') ->
    exists u res,
      r = Returns (u, res)
      /\ Email u = Email u0
      /\ users w'
         = match res with
           | None => users w ++ [u]
           | Some _ => users w
           end.
Proof.
  intros r w'. unfold userRepo_Create, gorm.CreateUser, gorm.newUUID.
  destruct (String.eqb (ID u0) ""); mrun;
    match goal with
    | |- context [upcoming ?x] => destruct (upcoming x) as [e |]
    end; mrun; fields;
    try match goal with
    | |- context [existsb ?f ?l] => destruct (existsb f l)
    end; mrun; intros [= <- <-]; fields;
    do 2 eexists; repeat split; reflexivity.
Qed.

End Repository.

Section UserService.
Context `{!jwt.Lib auth.Claims} `{!bcrypt.Lib}.
Import entities services.

Lemma issueTokenPair_run (s : UserService) (userID role : string) (w : World) :
  run (issueTokenPair s userID role) w
  = (Returns (Some (issuedPair (jwtManager s) userID role w), None), tick (tick w)).
Proof. reflexivity. Qed.

Lemma compareAndIssue_run (s : UserService) (in_ : LoginInput.t) (u : User) (w : World) :
  let w1 := set_trace (trace w ++ [EvBcryptCompare (PasswordHash u) (LoginInput.Password in_)]) w in
  run (compareAndIssue s in_ u) w
  = match bcrypt.CompareHashAndPassword (PasswordHash u) (LoginInput.Password in_) with
    | Some _ => (Returns (None, None, Some ErrInvalidCredentials), w1)
    | None =>
        (Returns (Some u, Some (issuedPair (jwtManager s) (ID u) (Role u) w1), None),
         tick (tick w1))
    end.
Proof.
  intros w1. unfold compareAndIssue, bcrypt.Compare. mrun. fold w1.
  destruct (bcrypt.CompareHashAndPassword _ _); mrun; [reflexivity |].
  rewrite issueTokenPair_run. reflexivity.
Qed.

(** [Login] after the lookup, for any repository: a not-found error ends the
    call with that error; after every other answer the code reads through
    the pointer it was given. *)
Lemma Login_after_lookup (s : UserService) (in_ : LoginInput.t) (w w1 : World)
    (user : option User) (err : option error) :
  run (repositories.FindByEmail (repo s) (LoginInput.Email in_)) w
  = (Returns (user, err), w1) ->
  run (Login s in_) w
  = if repositories.isErr err repositories_ErrNotFound
    then (Returns (None, None, err), w1)
    else match user with
         | Some u => run (compareAndIssue s in_ u) w1
         | None => (Panics nilDereference, w1)
         end.
Proof.
  intros Hfind. unfold Login. rewrite run_bind, Hfind. cbv beta iota.
  destruct err as [e |]; cbn [repositories.isErr].
  - destruct (errors.Is e repositories_ErrNotFound); [reflexivity |].
    destruct user as [u |]; reflexivity.
  - destruct user as [u |]; reflexivity.
Qed.

(** [Register] when the lookup comes back without an error: nothing is
    hashed, nothing is created. *)
Lemma Register_lookup_nil (s : UserService) (in_ : RegisterInput.t) (w w1 : World)
    (user : option User) :
  run (repositories.FindByEmail (repo s) (RegisterInput.Email in_)) w
  = (Returns (user, None), w1) ->
  run (Register s in_) w = (Returns (None, Some ErrEmailTaken), w1).
Proof. intros Hfind. unfold Register. rewrite run_bind, Hfind. reflexivity. Qed.

(** [RefreshTokens] once the token is parsed: the subject of the token is
    handed to [FindByEmail]. *)
Lemma RefreshTokens_after_parse (s : UserService) (refreshToken : string)
    (claims : auth.Claims) (w w1 : World) :
  run (auth.Parse (jwtManager s) refreshToken) w = (Returns (Some claims, None), w1) ->
  auth.TokenType_ claims = auth.RefreshToken ->
  run (RefreshTokens s refreshToken) w
  = match run (repositories.FindByEmail (repo s) (auth.UserID claims)) w1 with
    | (Returns (_, Some _), w2) => (Returns (None, Some ErrInvalidCredentials), w2)
    | (Returns (Some user, None), w2) =>
        (Returns (Some (issuedPair (jwtManager s) (ID user) (Role user) w2), None),
         tick (tick w2))
    | (Returns (None, None), w2) => (Panics nilDereference, w2)
    | (Panics msg, w2) => (Panics msg, w2)
    end.
Proof.
  intros Hparse Hkind. unfold RefreshTokens. rewrite run_bind, Hparse.
  cbv beta iota. cbn [deref]. mrun. rewrite Hkind. cbn [String.eqb Ascii.eqb Bool.eqb negb auth.RefreshToken].
  mrun.
  destruct (run (repositories.FindByEmail (repo s) (auth.UserID claims)) w1)
    as [[[[user |] [err |]] | msg] w2]; mrun; try reflexivity.
Qed.

End UserService.

Section WiredService.
Context `{!jwt.Lib auth.Claims} `{!bcrypt.Lib}.
Import entities services.

Lemma Register_existing (m : auth.Manager) (cost : Z) (in_ : RegisterInput.t)
    (w : World) (u : User) :
  In u (users w) ->
  Email u = RegisterInput.Email in_ ->
  run (Register (userService m cost) in_) w
  = (Returns (None, Some ErrEmailTaken),
     answered (EvUserFirst "email" (RegisterInput.Email in_)
                 (firstAnswer (byEmail (RegisterInput.Email in_) w) w)) w).
Proof.
  intros Hin Hmail.
  destruct (byEmail_found _ w u Hin Hmail) as [r Hr].
  destruct (upcoming w) as [e |] eqn:Hup;
    eapply Register_lookup_nil;
    cbn [userService repo repositories.FindByEmail repositories.NewUserRepository];
    rewrite userRepo_FindByEmail_run, Hr, Hup; reflexivity.
Qed.

(** C9 -- registering an email that is taken.  When the users table holds
    a record with the email of the request, [Register] returns the
    email-taken error; its only call is the lookup by email, so no password
    is hashed and no record is created; the users table is unchanged. *)
Theorem register_existing_email (m : auth.Manager) (cost : Z) (in_ : RegisterInput.t)
    (w : World) (u : User) :
  In u (users w) ->
  Email u = RegisterInput.Email in_ ->
  fst (run (Register (userService m cost) in_) w) = Returns (None, Some ErrEmailTaken)
  /\ users (snd (run (Register (userService m cost) in_) w)) = users w
  /\ exists res,
       trace (snd (run (Register (userService m cost) in_) w))
       = trace w ++ [EvUserFirst "email" (RegisterInput.Email in_) res].
Proof.
  intros Hin Hmail. rewrite (Register_existing m cost in_ w u Hin Hmail).
  repeat split. eexists. reflexivity.
Qed.

(** A registration that succeeded leaves a record with its email. *)
Lemma Register_success (m : auth.Manager) (cost : Z) (in_ : RegisterInput.t)
    (w w' : World) (u : User) :
  run (Register (userService m cost) in_) w = (Returns (Some u, None), w') ->
  In u (users w') /\ Email u = RegisterInput.Email in_.
Proof.
  unfold Register.
  cbn [userService repo repositories.FindByEmail repositories.Create
       repositories.NewUserRepository bcryptCost].
  rewrite run_bind, userRepo_FindByEmail_run.
  destruct (upcoming w); [intros [= ] |].
  destruct (byEmail _ w); [intros [= ] |].
  cbv beta iota. unfold bcrypt.GenerateFromPassword. mrun.
  destruct (bcrypt.Reject _ _); mrun; [intros [= ] |].
  match goal with
  | |- context [run (repositories.userRepo_Create ?a) ?x] =>
      destruct (run (repositories.userRepo_Create a) x) as [r1 w1] eqn:Hcr;
      apply userRepo_Create_effect in Hcr;
      destruct Hcr as (u1 & res & -> & Hmail & Husers)
  end.
  mrun. destruct res; mrun; intros [= <- <-].
  rewrite Husers. split; [apply in_or_app; right; left; reflexivity | exact Hmail].
Qed.

(** Registering twice with the same email: the second attempt returns the
    email-taken error and leaves the users table as the first one left it. *)
Lemma Register_twice (m : auth.Manager) (cost : Z) (first second : RegisterInput.t)
    (w w1 : World) (u : User) :
  run (Register (userService m cost) first) w = (Returns (Some u, None), w1) ->
  RegisterInput.Email second = RegisterInput.Email first ->
  fst (run (Register (userService m cost) second) w1) = Returns (None, Some ErrEmailTaken)
  /\ users (snd (run (Register (userService m cost) second) w1)) = users w1.
Proof.
  intros Hfirst Hsame.
  destruct (Register_success m cost first w w1 u Hfirst) as [Hin Hmail].
  rewrite <- Hsame in Hmail.
  rewrite (Register_existing m cost second w1 u Hin Hmail). split; reflexivity.
Qed.

(** [Login] with an email no record has, the database answering: the
    error is the repository's not-found error. *)
Lemma Login_unknown_email (m : auth.Manager) (cost : Z) (in_ : LoginInput.t) (w : World) :
  upcoming w = None ->
  byEmail (LoginInput.Email in_) w = None ->
  fst (run (Login (userService m cost) in_) w)
  = Returns (None, None, Some repositories.ErrNotFound).
Proof.
  intros Hup Hnone.
  erewrite Login_after_lookup
    by (cbn [userService repo repositories.FindByEmail repositories.NewUserRepository];
        rewrite userRepo_FindByEmail_run, Hup, Hnone; reflexivity).
  reflexivity.
Qed.

(** [Login] with the email of a record and a password its hash does not
    match: the error is the invalid-credentials error. *)
Lemma Login_wrong_password (m : auth.Manager) (cost : Z) (in_ : LoginInput.t)
    (w : World) (u : User) (e : error) :
  upcoming w = None ->
  byEmail (LoginInput.Email in_) w = Some u ->
  bcrypt.CompareHashAndPassword (PasswordHash u) (LoginInput.Password in_) = Some e ->
  fst (run (Login (userService m cost) in_) w)
  = Returns (None, None, Some ErrInvalidCredentials).
Proof.
  intros Hup Hsome Hcmp.
  erewrite Login_after_lookup
    by (cbn [userService repo repositories.FindByEmail repositories.NewUserRepository];
        rewrite userRepo_FindByEmail_run, Hup, Hsome; reflexivity).
  cbn [repositories.isErr]. rewrite compareAndIssue_run, Hcmp. reflexivity.
Qed.

(** [RefreshTokens] for a token whose subject is no record's email, the
    database answering: the error is the invalid-credentials error, whether
    or not a record has the subject as its id. *)
Lemma RefreshTokens_subject_by_email (m : auth.Manager) (cost : Z)
    (refreshToken : string) (claims : auth.Claims) (w w1 : World) :
  run (auth.Parse m refreshToken) w = (Returns (Some claims, None), w1) ->
  auth.TokenType_ claims = auth.RefreshToken ->
  upcoming w1 = None ->
  byEmail (auth.UserID claims) w1 = None ->
  fst (run (RefreshTokens (userService m cost) refreshToken) w)
  = Returns (None, Some ErrInvalidCredentials).
Proof.
  intros Hparse Hkind Hup Hnone.
  rewrite (RefreshTokens_after_parse (userService m cost) refreshToken claims w w1 Hparse Hkind).
  cbn [userService repo repositories.FindByEmail repositories.NewUserRepository].
  rewrite userRepo_FindByEmail_run, Hup, Hnone. reflexivity.
Qed.

(** C10 -- a store failure is swallowed by the lookups.  When the next
    database query fails (with an error of the database, which is never the
    record-not-found answer), [FindByID] and [FindByEmail] return the
    zero-value record and a nil error.  Their callers go on as if that
    record had been found: [Register] reports the email as taken; [Login]
    compares the password with the empty hash of the zero-value record and,
    should the comparison pass, logs the zero-value user in; [RefreshTokens]
    issues a pair for the empty subject and role. *)
Theorem store_failure_is_swallowed (m : auth.Manager) (cost : Z) (w : World) (e : error) :
  upcoming w = Some e ->
  (forall id, fst (run (repositories.userRepo_FindByID id) w) = Returns (Some zeroUser, None))
  /\ (forall email,
         fst (run (repositories.userRepo_FindByEmail email) w) = Returns (Some zeroUser, None))
  /\ (forall in_,
         fst (run (Register (userService m cost) in_) w) = Returns (None, Some ErrEmailTaken))
  /\ (forall in_,
         let w1 := answered (EvUserFirst "email" (LoginInput.Email in_) (Some e)) w in
         let w2 := set_trace (trace w1 ++ [EvBcryptCompare "" (LoginInput.Password in_)]) w1 in
         run (Login (userService m cost) in_) w
         = match bcrypt.CompareHashAndPassword "" (LoginInput.Password in_) with
           | Some _ => (Returns (None, None, Some ErrInvalidCredentials), w2)
           | None =>
               (Returns (Some zeroUser, Some (issuedPair m "" "" w2), None), tick (tick w2))
           end)
  /\ (forall refreshToken claims w0,
         run (auth.Parse m refreshToken) w0 = (Returns (Some claims, None), w) ->
         auth.TokenType_ claims = auth.RefreshToken ->
         exists w1,
           run (RefreshTokens (userService m cost) refreshToken) w0
           = (Returns (Some (issuedPair m "" "" w1), None), tick (tick w1))).
Proof.
  intros Hup. repeat split.
  - intros id. rewrite userRepo_FindByID_run, Hup. reflexivity.
  - intros email. rewrite userRepo_FindByEmail_run, Hup. reflexivity.
  - intros in_. erewrite Register_lookup_nil; [reflexivity |].
    cbn [userService repo repositories.FindByEmail repositories.NewUserRepository].
    rewrite userRepo_FindByEmail_run, Hup. reflexivity.
  - intros in_ w1 w2.
    erewrite Login_after_lookup
      by (cbn [userService repo repositories.FindByEmail repositories.NewUserRepository];
          rewrite userRepo_FindByEmail_run, Hup; reflexivity).
    cbn [repositories.isErr]. rewrite compareAndIssue_run.
    unfold firstAnswer. rewrite Hup. reflexivity.
  - intros refreshToken claims w0 Hparse Hkind.
    rewrite (RefreshTokens_after_parse (userService m cost) refreshToken claims w0 w Hparse Hkind).
    cbn [userService repo repositories.FindByEmail repositories.NewUserRepository].
    rewrite userRepo_FindByEmail_run, Hup. eexists. reflexivity.
Qed.

(** C8 -- the comparison after a failed lookup.  For any repository
    behind the [UserRepository] interface, when [FindByEmail] returns an
    error: if it is the not-found error, [Login] returns that error at
    once; for every other error [Login] does not return, it reads the
    password hash through the pointer the lookup returned.  With a nil
    pointer the call panics on the dereference; with a record behind the
    pointer the next call is the password comparison against that record.
    So no lookup error makes [Login] end with the invalid-credentials error
    before the comparison. *)
Theorem login_compares_after_failed_lookup (s : UserService) (in_ : LoginInput.t)
    (w w1 : World) (user : option User) (err : error) :
  run (repositories.FindByEmail (repo s) (LoginInput.Email in_)) w
  = (Returns (user, Some err), w1) ->
  if errors.Is err repositories_ErrNotFound
  then run (Login s in_) w = (Returns (None, None, Some err), w1)
  else match user with
       | None => run (Login s in_) w = (Panics nilDereference, w1)
       | Some u =>
           run (Login s in_) w = run (compareAndIssue s in_ u) w1
           /\ exists new,
                trace (snd (run (Login s in_) w))
                = trace w1
                  ++ EvBcryptCompare (PasswordHash u) (LoginInput.Password in_) :: new
       end.
Proof.
  intros Hfind.
  rewrite (Login_after_lookup s in_ w w1 user (Some err) Hfind).
  cbn [repositories.isErr].
  destruct (errors.Is err repositories_ErrNotFound); [reflexivity |].
  destruct user as [u |]; [| reflexivity].
  split; [reflexivity |].
  rewrite compareAndIssue_run. exists [].
  destruct (bcrypt.CompareHashAndPassword _ _); reflexivity.
Qed.

End WiredService.

(* ===================================================================== *)
(** ** Runs on concrete inputs, with the reference libraries *)
(* ===================================================================== *)


Lemma append_cancel_l (a b c : string) : a +:+ b = a +:+ c -> b = c.
Proof.
  induction a as [| x a IH]; cbn; intros H; [exact H |].
  injection H as H. auto.
Qed.

Section ReferenceTokens.
#[local] Existing Instance refJWT.

Lemma reference_keyBinding : keyBinding.
Proof. intros m key key' text H. cbn in H. unfold refHMAC in H. eapply append_cancel_l, H. Qed.

Lemma foreign_secret_rejected_witness :
run (auth.Parse (auth.NewManager "k1" 900000000000 604800000000000)
       (signed "k2" (issuedClaims "u1" "user" auth.AccessToken 0 900000000000)))
    (quiet 5)
= (Returns (None, Some auth.ErrTokenInvalid), quiet 5).
Proof.
apply (foreign_secret_rejected
         (auth.NewManager "k1" 900000000000 604800000000000) "k2").
- exact reference_keyBinding.
- discriminate.
- exists jwt.HS256, (issuedClaims "u1" "user" auth.AccessToken 0 900000000000),
    (jwt.SigningString jwt.HS256 (issuedClaims "u1" "user" auth.AccessToken 0 900000000000)).
  apply jwt.Split_Compact.
Defined.

End ReferenceTokens.

Section Examples.
#[local] Existing Instance refJWT.
#[local] Existing Instance refBcrypt.
Import entities services example.

(** C1 -- the two failures of a login, as the code has them.  With one
    registered user: a login with an email that no record has ends with the
    repository's not-found error, and the handler answers 500 with the text
    "internal server error"; a login with the email of the record and a
    password that does not match ends with the invalid-credentials error,
    and the handler answers 401 with the text "invalid email or password".
    The two error values differ, and so do the two responses. *)
Theorem login_failures_are_distinguishable :
  fst (run (Login service unknownEmail) world)
  = Returns (None, None, Some repositories.ErrNotFound)
  /\ fst (run (Login service wrongPassword) world)
     = Returns (None, None, Some ErrInvalidCredentials)
  /\ repositories.ErrNotFound <> ErrInvalidCredentials
  /\ written (fst (run (handlers.Login handler (request "" unknownEmail)) world))
     = failure 500 "internal server error"
  /\ written (fst (run (handlers.Login handler (request "" wrongPassword)) world))
     = failure 401 "invalid email or password".
Proof.
  split; [apply Login_unknown_email; reflexivity |].
  split; [eapply Login_wrong_password; reflexivity |].
  split; [discriminate |].
  split; vm_compute; reflexivity.
Qed.

(** C2 -- a refresh for an existing user, as the code has it.  The users
    table holds the user with id u1; the refresh token was issued for
    subject u1 by the same manager and is not expired; [Parse] accepts it
    with subject u1 and kind refresh.  [RefreshTokens] looks the subject up
    as an email, finds no record, and returns the invalid-credentials error
    and no token pair. *)
Theorem refresh_for_existing_user_fails :
  let token := TokenPair.RefreshToken (issuedPair manager "u1" "user" world) in
  byID "u1" world = Some ann
  /\ (exists claims,
         fst (run (auth.Parse manager token) world) = Returns (Some claims, None)
         /\ auth.UserID claims = "u1"
         /\ auth.TokenType_ claims = auth.RefreshToken)
  /\ fst (run (RefreshTokens service token) world)
     = Returns (None, Some ErrInvalidCredentials).
Proof.
  intros token. split; [reflexivity |]. split.
  - eexists. split; [unfold token, issuedPair, TokenPair.RefreshToken;
                     rewrite Parse_signed; reflexivity |].
    split; reflexivity.
  - eapply RefreshTokens_subject_by_email.
    + unfold token, issuedPair, TokenPair.RefreshToken.
      rewrite Parse_signed. reflexivity.
    + reflexivity.
    + reflexivity.
    + reflexivity.
Qed.

(** An access token issued at [t0] expires 900 seconds after the start of
    the second of [t0]: one nanosecond before, it parses; at that instant,
    it is expired. *)
Example access_token_at_its_expiry :
  let token := TokenPair.AccessToken (issuedPair manager "u1" "user" world) in
  let claims :=
    issuedClaims "u1" "user" auth.AccessToken t0 (auth.accessTTL manager) in
  jwt.ExpiresAt (auth.RegisteredClaims claims) = Some 1700000900000000000
  /\ fst (run (auth.Parse manager token) (quiet 1700000899999999999))
     = Returns (Some claims, None)
  /\ fst (run (auth.Parse manager token) (quiet 1700000900000000000))
     = Returns (None, Some (Sentinel jwt_ErrTokenExpired)).
Proof. repeat split; vm_compute; reflexivity. Qed.

(** The upload of hello.txt when the object store refuses the blob: one
    call, no record, no delete. *)
Example upload_refused :
  let client := {| storage.bucketName := "notes" |} in
  let w := set_faults [Some "object store down"] (quiet t0) in
  trace (snd (run (Create (saga.service client) upload) w))
  = [EvPutObject uploadKey (Some (External "object store down"))]
  /\ attachments (snd (run (Create (saga.service client) upload) w)) = [].
Proof. split; vm_compute; reflexivity. Qed.

(** The same upload when both stores answer: the blob, then the record. *)
Example upload_recorded :
  let client := {| storage.bucketName := "notes" |} in
  trace (snd (run (Create (saga.service client) upload) (quiet t0)))
  = [EvPutObject uploadKey None; EvAttachmentCreate uploadRecord None]
  /\ attachments (snd (run (Create (saga.service client) upload) (quiet t0)))
     = [uploadRecord]
  /\ bucket (snd (run (Create (saga.service client) upload) (quiet t0))) !! uploadKey
     = Some {| Body := "0123456789"; ContentType := "application/octet-stream";
               ContentLength := 10 |}.
Proof. repeat split; vm_compute; reflexivity. Qed.

Lemma refresh_token_rejected_by_gate_witness :
  let token := TokenPair.RefreshToken (issuedPair manager "u1" "user" world) in
  let claims :=
    issuedClaims "u1" "user" auth.RefreshToken (reading (tick world))
      (auth.refreshTTL manager) in
  let c := request (B := unit) ("Bearer " +:+ token) tt in
  exists c' w' msg,
    run (middleware.Authenticate manager mret c) world = (Returns c', w')
    /\ gin.Written c'
       = Some (gin.StatusUnauthorized,
               {| utils.Success := false; utils.Data_ := utils.NoData;
                  utils.Error_ := msg |})
    /\ gin.Aborted c' = true
    /\ gin.Keys c' = gin.Keys c
    /\ (forall w1,
           run (auth.Parse manager token) world = (Returns (Some claims, None), w1) ->
           msg = "invalid token type" /\ w' = w1).
Proof.
  intros token claims c.
  apply (refresh_token_rejected_by_gate manager mret c "Bearer" token jwt.HS256 claims
           (jwt.SigningString jwt.HS256 claims)
           (jwt.HMAC jwt.HS256 (auth.secret manager) (jwt.SigningString jwt.HS256 claims))
           world).
  - reflexivity.
  - reflexivity.
  - vm_compute. reflexivity.
  - reflexivity.
Defined.

Lemma metadata_failure_is_compensated_witness :
  let client := {| storage.bucketName := "notes" |} in
  let w := set_faults [None; Some "metadata store down"; Some "object store down"] (quiet t0) in
  let e := External "metadata store down" in
  let new := [EvPutObject uploadKey None; EvAttachmentCreate uploadRecord (Some e);
              EvDeleteObject uploadKey
                (Some (External "object store down"))] in
  (exists del,
      new = [EvPutObject uploadKey None; EvAttachmentCreate uploadRecord (Some e);
             EvDeleteObject uploadKey del])
  /\ S3Key uploadRecord = uploadKey
  /\ attachments (snd (run (Create (saga.service client) upload) w)) = attachments w
  /\ fst (run (Create (saga.service client) upload) w)
     = Returns (None, "", Some (Wrapf "saving attachment metadata" e)).
Proof.
  intros client w e new.
  apply (metadata_failure_is_compensated client upload w new uploadKey uploadRecord e).
  - vm_compute. reflexivity.
  - simpl. auto.
  - simpl. auto.
Defined.

Lemma register_existing_email_witness :
  let again :=
    {| RegisterInput.Email := "ann@example.com"; RegisterInput.Username := "ann2";
       RegisterInput.Password := "another password" |} in
  fst (run (Register service again) world) = Returns (None, Some ErrEmailTaken)
  /\ users (snd (run (Register service again) world)) = users world
  /\ exists res,
       trace (snd (run (Register service again) world))
       = trace world ++ [EvUserFirst "email" "ann@example.com" res].
Proof.
  intros again.
  apply (register_existing_email manager 12 again world ann).
  - simpl. auto.
  - reflexivity.
Defined.

Lemma store_failure_is_swallowed_witness :
  let w := set_faults [Some "connection refused"] world in
  let e := External "connection refused" in
  (forall id, fst (run (repositories.userRepo_FindByID id) w) = Returns (Some zeroUser, None))
  /\ (forall email,
         fst (run (repositories.userRepo_FindByEmail email) w) = Returns (Some zeroUser, None))
  /\ (forall in_,
         fst (run (Register service in_) w) = Returns (None, Some ErrEmailTaken))
  /\ (forall in_,
         let w1 := answered (EvUserFirst "email" (LoginInput.Email in_) (Some e)) w in
         let w2 := set_trace (trace w1 ++ [EvBcryptCompare "" (LoginInput.Password in_)]) w1 in
         run (Login service in_) w
         = match bcrypt.CompareHashAndPassword "" (LoginInput.Password in_) with
           | Some _ => (Returns (None, None, Some ErrInvalidCredentials), w2)
           | None =>
               (Returns (Some zeroUser, Some (issuedPair manager "" "" w2), None),
                tick (tick w2))
           end)
  /\ (forall refreshToken claims w0,
         run (auth.Parse manager refreshToken) w0 = (Returns (Some claims, None), w) ->
         auth.TokenType_ claims = auth.RefreshToken ->
         exists w1,
           run (RefreshTokens service refreshToken) w0
           = (Returns (Some (issuedPair manager "" "" w1), None), tick (tick w1))).
Proof.
  intros w e.
  apply (store_failure_is_swallowed manager 12 w e).
  reflexivity.
Defined.

Lemma login_compares_after_failed_lookup_witness :
  let s := {| repo := brokenRepository; jwtManager := manager; bcryptCost := 12 |} in
  run (Login s unknownEmail) world = (Panics nilDereference, world).
Proof.
  intros s.
  apply (login_compares_after_failed_lookup s unknownEmail world world None
           (External "connection refused")).
  reflexivity.
Defined.

End Examples.

(* ===================================================================== *)
(** ** More on tokens: what Parse accepts, and the pair of a login *)
(* ===================================================================== *)

Section ParseDecision.
Context `{!jwt.Lib auth.Claims}.
Import auth.

Lemma Verify_None_iff (mth : jwt.SigningMethod) (text sig key : string) :
  jwt.Verify mth text sig key = None
  <-> jwt.isHMAC mth = true /\ sig = jwt.HMAC mth key text.
Proof.
  unfold jwt.Verify. destruct (jwt.isHMAC mth).
  - destruct (String.eqb_spec sig (jwt.HMAC mth key text)) as [Heq | Hne].
    + split; auto.
    + split; [discriminate | intros [_ Heq]; contradiction].
  - split; [discriminate | intros [Hm _]; discriminate].
Qed.

Lemma Validate_None_iff (now : time.Time) (rc : jwt.RegisteredClaims) :
  jwt.Validate now rc = None
  <-> (forall e, jwt.ExpiresAt rc = Some e -> now < e)
      /\ (forall n, jwt.NotBefore rc = Some n -> n <= now).
Proof.
  unfold jwt.Validate, jwt.join, time.Before.
  destruct (jwt.ExpiresAt rc) as [e |], (jwt.NotBefore rc) as [n |];
    repeat match goal with
           | |- context [?a <? ?b] => destruct (Z.ltb_spec a b)
           end;
    split; try discriminate; try (intros _; split; intros ? [= <-]; lia);
    try (intros [He Hn]; try specialize (He _ eq_refl); try specialize (Hn _ eq_refl); lia);
    try (intros _; split; intros ? [= ]).
Qed.

Lemma Validate_expired_iff (now : time.Time) (rc : jwt.RegisteredClaims) :
  (exists err, jwt.Validate now rc = Some err /\ errors.Is err jwt_ErrTokenExpired = true)
  <-> exists e, jwt.ExpiresAt rc = Some e /\ e <= now.
Proof.
  unfold jwt.Validate, jwt.join, time.Before.
  destruct (jwt.ExpiresAt rc) as [e |], (jwt.NotBefore rc) as [n |];
    repeat match goal with
           | |- context [?a <? ?b] => destruct (Z.ltb_spec a b)
           end;
    (split;
     [ intros (err & Herr & His);
       first [ discriminate Herr
             | injection Herr as <-; cbn in His;
               first [ discriminate His | eexists; split; [reflexivity | lia] ] ]
     | intros (e' & He' & Hle);
       first [ discriminate He'
             | injection He' as <-;
               first [ lia | eexists; split; reflexivity ] ] ]).
Qed.

(** [Parse], decision by decision: the split, the signing method, the
    signature, and only then the clock and the time claims. *)
Lemma Parse_run (m : Manager) (tokenStr : string) (w : World) :
  run (Parse m tokenStr) w
  = match jwt.Split tokenStr with
    | None => (Returns (None, Some ErrTokenInvalid), w)
    | Some (mth, c, text, sig) =>
        match jwt.Verify mth text sig (secret m) with
        | Some _ => (Returns (None, Some ErrTokenInvalid), w)
        | None =>
            match jwt.Validate (reading w) (RegisteredClaims c) with
            | None => (Returns (Some c, None), tick w)
            | Some e =>
                (Returns (None,
                          Some (if errors.Is e jwt_ErrTokenExpired
                                then Sentinel jwt_ErrTokenExpired
                                else ErrTokenInvalid)),
                 tick w)
            end
        end
    end.
Proof.
  unfold Parse, jwt.ParseWithClaims.
  destruct (jwt.Split tokenStr) as [[[[mth c] text] sig] |]; [| reflexivity].
  unfold keyFunc. cbn [jwt.Method].
  destruct (jwt.isHMAC mth) eqn:Hm.
  - destruct (Verify_result mth text sig (secret m)) as [Hv | [msg Hv]]; rewrite Hv.
    + rewrite !run_bind, run_Now. cbn [jwt.Registered Claims_jwt].
      destruct (jwt.Validate (reading w) (RegisteredClaims c)) as [e |]; [| reflexivity].
      rewrite run_ret. cbn. destruct (errors.Is e jwt_ErrTokenExpired); reflexivity.
    + reflexivity.
  - assert (Hv : exists e, jwt.Verify mth text sig (secret m) = Some e).
    { unfold jwt.Verify. rewrite Hm. eauto. }
    destruct Hv as [e ->]. reflexivity.
Qed.

(** X1 -- what [Parse] accepts.  [Parse] returns claims exactly for a
    compact token that splits into those claims, names a method of the HMAC
    family, carries the MAC of its text under the manager's secret, and
    whose time claims hold at the reading of the clock: not expired, and
    not before its not-before time. *)
Theorem Parse_accepts_iff (m : Manager) (tokenStr : string) (c : Claims) (w : World) :
  fst (run (Parse m tokenStr) w) = Returns (Some c, None)
  <-> exists mth text,
        jwt.Split tokenStr = Some (mth, c, text, jwt.HMAC mth (secret m) text)
        /\ jwt.isHMAC mth = true
        /\ (forall e, jwt.ExpiresAt (RegisteredClaims c) = Some e -> reading w < e)
        /\ (forall n, jwt.NotBefore (RegisteredClaims c) = Some n -> n <= reading w).
Proof.
  rewrite Parse_run. split.
  - destruct (jwt.Split tokenStr) as [[[[mth c'] text] sig] |]; [| discriminate].
    destruct (jwt.Verify mth text sig (secret m)) eqn:Hv; [discriminate |].
    destruct (jwt.Validate (reading w) (RegisteredClaims c')) eqn:Hval; [discriminate |].
    intros [= <-]. apply Verify_None_iff in Hv as [Hm ->].
    apply Validate_None_iff in Hval as [He Hn].
    exists mth, text. auto.
  - intros (mth & text & -> & Hm & He & Hn).
    assert (Hv : jwt.Verify mth text (jwt.HMAC mth (secret m) text) (secret m) = None)
      by (apply Verify_None_iff; auto).
    assert (Hval : jwt.Validate (reading w) (RegisteredClaims c) = None)
      by (apply Validate_None_iff; auto).
    rewrite Hv, Hval. reflexivity.
Qed.

(** X2 -- when [Parse] reports expiry.  The expiry error is returned
    exactly for a token that is authentic (HMAC method, MAC of its text
    under the manager's secret) and whose expiry is at or before the reading
    of the clock; a token with a wrong signature is never reported as
    expired, whatever its expiry says. *)
Theorem Parse_expired_iff (m : Manager) (tokenStr : string) (w : World) :
  fst (run (Parse m tokenStr) w) = Returns (None, Some (Sentinel jwt_ErrTokenExpired))
  <-> exists mth c text e,
        jwt.Split tokenStr = Some (mth, c, text, jwt.HMAC mth (secret m) text)
        /\ jwt.isHMAC mth = true
        /\ jwt.ExpiresAt (RegisteredClaims c) = Some e
        /\ e <= reading w.
Proof.
  rewrite Parse_run. split.
  - destruct (jwt.Split tokenStr) as [[[[mth c] text] sig] |]; [| discriminate].
    destruct (jwt.Verify mth text sig (secret m)) eqn:Hv; [discriminate |].
    destruct (jwt.Validate (reading w) (RegisteredClaims c)) as [err |] eqn:Hval;
      [| discriminate].
    destruct (errors.Is err jwt_ErrTokenExpired) eqn:His; [| discriminate].
    intros _. apply Verify_None_iff in Hv as [Hm ->].
    destruct (proj1 (Validate_expired_iff (reading w) (RegisteredClaims c))) as (e & He & Hle);
      [eauto |].
    exists mth, c, text, e. auto.
  - intros (mth & c & text & e & -> & Hm & He & Hle).
    assert (Hv : jwt.Verify mth text (jwt.HMAC mth (secret m) text) (secret m) = None)
      by (apply Verify_None_iff; auto).
    rewrite Hv.
    destruct (proj2 (Validate_expired_iff (reading w) (RegisteredClaims c)))
      as (err & Hval & His); [eauto |].
    rewrite Hval, His. reflexivity.
Qed.

(** X3 -- the guard admits the whole HMAC family.  A token that names
    HS256, HS384 or HS512, is signed with that method under the manager's
    secret, and is within its time claims is accepted by [Parse], with the
    claims it carries. *)
Theorem Parse_accepts_hmac_family (m : Manager) (mth : jwt.SigningMethod) (c : Claims)
    (w : World) :
  jwt.isHMAC mth = true ->
  (forall e, jwt.ExpiresAt (RegisteredClaims c) = Some e -> reading w < e) ->
  (forall n, jwt.NotBefore (RegisteredClaims c) = Some n -> n <= reading w) ->
  fst (run (Parse m (jwt.Compact (jwt.SigningString mth c)
                       (jwt.HMAC mth (secret m) (jwt.SigningString mth c)))) w)
  = Returns (Some c, None).
Proof.
  intros Hm He Hn. rewrite Parse_run, jwt.Split_Compact.
  assert (Hv : jwt.Verify mth (jwt.SigningString mth c)
                 (jwt.HMAC mth (secret m) (jwt.SigningString mth c)) (secret m) = None)
    by (apply Verify_None_iff; auto).
  assert (Hval : jwt.Validate (reading w) (RegisteredClaims c) = None)
    by (apply Validate_None_iff; auto).
  rewrite Hv, Hval. reflexivity.
Qed.

End ParseDecision.

Section IssuedPair.
Context `{!jwt.Lib auth.Claims} `{!bcrypt.Lib}.
Import auth services.

(** X4 -- the pair of [issueTokenPair] reads back.  The pair is made of an
    access token and a refresh token for the same subject and role; each
    expires its own TTL after its own reading of the clock, truncated to the
    second; parsed with the manager of the service, each yields its claims
    before its expiry and the expiry error from then on. *)
Theorem issued_pair_round_trip (s : UserService) (userID role : string)
    (w wa wr : World) :
  let m := jwtManager s in
  let expA := jwt.NewNumericDate (time.Add (reading w) (accessTTL m)) in
  let expR := jwt.NewNumericDate (time.Add (reading (tick w)) (refreshTTL m)) in
  exists pair a r,
    run (issueTokenPair s userID role) w = (Returns (Some pair, None), tick (tick w))
    /\ (UserID a = userID /\ Role a = role /\ TokenType_ a = AccessToken
        /\ jwt.ExpiresAt (RegisteredClaims a) = Some expA)
    /\ (UserID r = userID /\ Role r = role /\ TokenType_ r = RefreshToken
        /\ jwt.ExpiresAt (RegisteredClaims r) = Some expR)
    /\ fst (run (Parse m (TokenPair.AccessToken pair)) wa)
       = (if time.Before (reading wa) expA
          then Returns (Some a, None)
          else Returns (None, Some (Sentinel jwt_ErrTokenExpired)))
    /\ fst (run (Parse m (TokenPair.RefreshToken pair)) wr)
       = (if time.Before (reading wr) expR
          then Returns (Some r, None)
          else Returns (None, Some (Sentinel jwt_ErrTokenExpired))).
Proof.
  intros m expA expR.
  exists (issuedPair m userID role w),
    (issuedClaims userID role AccessToken (reading w) (accessTTL m)),
    (issuedClaims userID role RefreshToken (reading (tick w)) (refreshTTL m)).
  split; [apply issueTokenPair_run |].
  split; [repeat split |]. split; [repeat split |].
  unfold issuedPair. cbn [TokenPair.AccessToken TokenPair.RefreshToken].
  rewrite !Parse_signed. unfold jwt.Validate.
  cbn [issuedClaims RegisteredClaims jwt.ExpiresAt jwt.NotBefore fst].
  fold expA expR.
  destruct (time.Before (reading wa) expA), (time.Before (reading wr) expR);
    split; reflexivity.
Qed.

End IssuedPair.

(* ===================================================================== *)
(** ** More on the middleware: identity and roles *)
(* ===================================================================== *)

Lemma allowedRoles_fold (roles : list string) (acc : gmap string unit) (r : string) :
  foldl (fun allowed x => <[x := tt]> allowed) acc roles !! r
  = if existsb (String.eqb r) roles then Some tt else acc !! r.
Proof.
  revert acc. induction roles as [| x roles IH]; intros acc; cbn [foldl existsb].
  - reflexivity.
  - rewrite IH. destruct (existsb (String.eqb r) roles); [rewrite orb_true_r; reflexivity |].
    rewrite orb_false_r.
    destruct (String.eqb_spec r x) as [-> | Hne].
    + apply lookup_insert_eq.
    + apply lookup_insert_ne. congruence.
Qed.

Section Roles.
Context {B : Type}.
Import gin middleware middleware_rest.

Lemma existsb_eqb_In (r : string) (roles : list string) :
  existsb (String.eqb r) roles = true <-> In r roles.
Proof.
  rewrite existsb_exists. split.
  - intros (x & Hin & Heq). apply String.eqb_eq in Heq. subst x. exact Hin.
  - intros Hin. exists r. split; [exact Hin | apply String.eqb_refl].
Qed.

(** [RequireRole], decision by decision. *)
Lemma RequireRole_run (roles : list string) (next : Context B -> M (Context B))
    (c : Context B) (w : World) :
  run (RequireRole roles next c) w
  = match Keys c !! ContextKeyRole with
    | None => (Panics nilNotString, w)
    | Some role =>
        if existsb (String.eqb role) roles then run (next c) w
        else (Returns (Abort (Forbidden c)), w)
    end.
Proof.
  unfold RequireRole.
  destruct (Keys c !! ContextKeyRole) as [role |]; [| reflexivity].
  unfold allowedRoles. rewrite allowedRoles_fold, lookup_empty.
  destruct (existsb (String.eqb role) roles); reflexivity.
Qed.

(** X5 -- the role gate.  With a role in the context, [RequireRole] runs
    the rest of the chain on the unchanged context when the role is one of
    the permitted roles, and otherwise answers 403 "forbidden" and aborts;
    with no role in the context (the gate used without [Authenticate] in
    front) it panics on the type assertion. *)
Theorem RequireRole_decides (roles : list string) (next : Context B -> M (Context B))
    (c : Context B) (w : World) :
  match Keys c !! ContextKeyRole with
  | None => run (RequireRole roles next c) w = (Panics nilNotString, w)
  | Some role =>
      (In role roles -> run (RequireRole roles next c) w = run (next c) w)
      /\ (~ In role roles ->
          run (RequireRole roles next c) w = (Returns (Abort (Forbidden c)), w))
  end.
Proof.
  rewrite RequireRole_run.
  destruct (Keys c !! ContextKeyRole) as [role |]; [| reflexivity].
  destruct (existsb (String.eqb role) roles) eqn:Hex.
  - split; [reflexivity |]. intros Hout. contradiction Hout.
    apply existsb_eqb_In. exact Hex.
  - split; [| reflexivity]. intros Hin.
    apply existsb_eqb_In in Hin. congruence.
Qed.

End Roles.

Section Identity.
Context `{!jwt.Lib auth.Claims} {B : Type}.
Import gin middleware middleware_rest responses.

Lemma identity_of_injected (c : Context B) (userID role : string) :
  let c' := Set_ (Set_ c ContextKeyUserID userID) ContextKeyRole role in
  GetUserID c' = userID
  /\ GetRole c' = role
  /\ Written c' = Written c
  /\ Aborted c' = Aborted c
  /\ forall k, k <> ContextKeyUserID -> k <> ContextKeyRole -> Keys c' !! k = Keys c !! k.
Proof.
  intros c'. unfold c', GetUserID, GetRole, Set_. cbn [Keys Written Aborted].
  repeat split.
  - rewrite lookup_insert_ne by discriminate. rewrite lookup_insert_eq. reflexivity.
  - rewrite lookup_insert_eq. reflexivity.
  - intros k Hu Hr. rewrite !lookup_insert_ne by congruence. reflexivity.
Qed.

(** X6 -- the identity behind the gate.  When the header presents, under
    the bearer scheme, a token that [Parse] accepts with kind access,
    [Authenticate] hands the rest of the chain a context on which
    [GetUserID] and [GetRole] return the subject and the role of the token;
    nothing is written, nothing is aborted, and no other key changes. *)
Theorem gate_identity (m : auth.Manager) (next : Context B -> M (Context B))
    (c : Context B) (scheme tok : string) (claims : auth.Claims) (w w1 : World) :
  Authorization c = scheme +:+ " " +:+ tok ->
  gostrings.EqualFold scheme "bearer" = true ->
  run (auth.Parse m tok) w = (Returns (Some claims, None), w1) ->
  auth.TokenType_ claims = auth.AccessToken ->
  exists c',
    run (Authenticate m next c) w = run (next c') w1
    /\ GetUserID c' = auth.UserID claims
    /\ GetRole c' = auth.Role claims
    /\ Written c' = Written c
    /\ Aborted c' = Aborted c
    /\ forall k, k <> ContextKeyUserID -> k <> ContextKeyRole -> Keys c' !! k = Keys c !! k.
Proof.
  intros Hh Hs Hp Hkind.
  exists (Set_ (Set_ c ContextKeyUserID (auth.UserID claims)) ContextKeyRole (auth.Role claims)).
  split; [| apply identity_of_injected].
  rewrite (Authenticate_bearer m next c scheme tok w Hh Hs), Hp, Hkind. reflexivity.
Qed.

(** X7 -- a route behind both gates.  For a handler placed behind
    [Authenticate] and [RequireRole], whatever the request: either the
    request is answered with 401 or 403 and aborted, or the header carried
    a token that [Parse] accepts, of kind access, whose role is one of the
    permitted roles, and the handler runs on a context that carries the
    subject and the role of that token.  The role gate never panics there. *)
Theorem route_behind_both_gates (m : auth.Manager) (roles : list string)
    (handler : Context B -> M (Context B)) (c : Context B) (w : World) :
  (exists c' w' status msg,
      run (Authenticate m (RequireRole roles handler) c) w = (Returns c', w')
      /\ Written c'
         = Some (status,
                 {| utils.Success := false; utils.Data_ := utils.NoData;
                    utils.Error_ := msg |})
      /\ (status = StatusUnauthorized \/ status = StatusForbidden)
      /\ Aborted c' = true)
  \/ (exists tok claims w1 c',
         run (auth.Parse m tok) w = (Returns (Some claims, None), w1)
         /\ auth.TokenType_ claims = auth.AccessToken
         /\ In (auth.Role claims) roles
         /\ GetUserID c' = auth.UserID claims
         /\ GetRole c' = auth.Role claims
         /\ run (Authenticate m (RequireRole roles handler) c) w = run (handler c') w1).
Proof.
  destruct (Authenticate_cases m (RequireRole roles handler) c w)
    as [(c' & w' & msg & Hrun & Hw & Ha & _) | (tok & claims & w1 & Hp & Hkind & Hrun)].
  - left. exists c', w', StatusUnauthorized, msg. auto.
  - set (c' := Set_ (Set_ c ContextKeyUserID (auth.UserID claims))
                    ContextKeyRole (auth.Role claims)) in *.
    destruct (identity_of_injected c (auth.UserID claims) (auth.Role claims))
      as (Hid & Hrole & _). fold c' in Hid, Hrole.
    assert (Hkey : Keys c' !! ContextKeyRole = Some (auth.Role claims)).
    { unfold c', Set_. cbn [Keys]. apply lookup_insert_eq. }
    rewrite Hrun, RequireRole_run, Hkey.
    destruct (existsb (String.eqb (auth.Role claims)) roles) eqn:Hex.
    + right. exists tok, claims, w1, c'. apply existsb_eqb_In in Hex. auto 10.
    + left. exists (Abort (Forbidden c')), w1, StatusForbidden, "forbidden". auto.
Qed.

End Identity.

(* ===================================================================== *)
(** ** More on the user service *)
(* ===================================================================== *)


Lemma answering_upcoming (w : World) : answering w -> upcoming w = None.
Proof.
  unfold answering, upcoming. intros H.
  destruct (faults w) as [| f fs]; [reflexivity |].
  rewrite (H f) by (left; reflexivity). reflexivity.
Qed.

Section RefreshKinds.
Context `{!jwt.Lib auth.Claims} `{!bcrypt.Lib}.
Import entities services.

(** X8 -- only refresh tokens refresh.  For any token that [Parse] does
    not accept with kind refresh (a token it rejects, an access token, a
    token of any other kind), [RefreshTokens] returns the
    invalid-refresh-token error and no pair, and does not call the
    repository: the world is the one [Parse] left. *)
Theorem refresh_needs_refresh_kind (s : UserService) (refreshToken : string) (w : World) :
  (forall claims,
      fst (run (auth.Parse (jwtManager s) refreshToken) w) = Returns (Some claims, None) ->
      auth.TokenType_ claims <> auth.RefreshToken) ->
  run (RefreshTokens s refreshToken) w
  = (Returns (None, Some ErrInvalidRefreshToken),
     snd (run (auth.Parse (jwtManager s) refreshToken) w)).
Proof.
  intros Hkind. unfold RefreshTokens. rewrite run_bind.
  destruct (Parse_cases (jwtManager s) refreshToken w)
    as [(c & w1 & Hp) | [(w1 & Hp) | (w1 & Hp)]]; rewrite Hp in *; try reflexivity.
  specialize (Hkind c eq_refl).
  cbv beta iota. cbn [deref]. mrun.
  destruct (String.eqb_spec (auth.TokenType_ c) auth.RefreshToken) as [Heq | _];
    [contradiction |].
  reflexivity.
Qed.

(** What a successful [Login] returns, for any repository: the pair issued
    for the id and the role of the record it returns. *)
Lemma Login_success_pair (s : UserService) (in_ : LoginInput.t) (w w' : World)
    (u : User) (pair : TokenPair.t) :
  run (Login s in_) w = (Returns (Some u, Some pair, None), w') ->
  exists w1, pair = issuedPair (jwtManager s) (ID u) (Role u) w1.
Proof.
  destruct (run (repositories.FindByEmail (repo s) (LoginInput.Email in_)) w)
    as [[[user err] | msg] w0] eqn:Hfind.
  - rewrite (Login_after_lookup s in_ w w0 user err Hfind).
    destruct (repositories.isErr err repositories_ErrNotFound).
    + intros [= ].
    + destruct user as [u0 |]; [| intros [= ]].
      rewrite compareAndIssue_run.
      destruct (bcrypt.CompareHashAndPassword _ _); [intros [= ] |].
      intros [= <- <- _]. eexists. reflexivity.
  - unfold Login. rewrite run_bind, Hfind. intros [= ].
Qed.

End RefreshKinds.

Section RegisterEffect.
Context `{!jwt.Lib auth.Claims} `{!bcrypt.Lib}.
Import entities services.

Lemma existsb_false_forall {A : Type} (f : A -> bool) (l : list A) :
  existsb f l = false -> forall x, In x l -> f x = false.
Proof.
  intros Hex x Hin. destruct (f x) eqn:Hf; [| reflexivity].
  assert (existsb f l = true) by (apply existsb_exists; eauto). congruence.
Qed.

(** [Register] on the gorm-backed repository, outcome by outcome. *)
Lemma Register_run_cases (m : auth.Manager) (cost : Z) (in_ : RegisterInput.t) (w : World) :
  let r := fst (run (Register (userService m cost) in_) w) in
  let w' := snd (run (Register (userService m cost) in_) w) in
  (exists u,
      r = Returns (Some u, None)
      /\ users w' = users w ++ [u]
      /\ u = {| ID := entropy w (S (drawn w));
                Email := RegisterInput.Email in_;
                PasswordHash :=
                  bcrypt.Hash (RegisterInput.Password in_) cost (entropy w (drawn w));
                Username := RegisterInput.Username in_;
                Role := "user" |}
      /\ (forall r0, In r0 (users w) -> Email r0 <> Email u /\ ID r0 <> ID u))
  \/ (exists e, r = Returns (None, Some e) /\ users w' = users w).
Proof.
  intros r w'. subst r w'. unfold Register.
  cbn [userService repo repositories.FindByEmail repositories.Create
       repositories.NewUserRepository bcryptCost].
  rewrite run_bind, userRepo_FindByEmail_run.
  destruct (upcoming w) as [e0 |] eqn:Hup0; [right; eexists; split; reflexivity |].
  destruct (byEmail (RegisterInput.Email in_) w) as [r0 |] eqn:Hby;
    [right; eexists; split; reflexivity |].
  cbv beta iota. unfold bcrypt.GenerateFromPassword. mrun.
  destruct (bcrypt.Reject _ _) as [e1 |]; mrun; [right; eexists; split; reflexivity |].
  unfold repositories.userRepo_Create, gorm.CreateUser, gorm.newUUID.
  cbn [ID String.eqb]. mrun. unfold answered. fields.
  match goal with
  | |- context [upcoming ?x] => destruct (upcoming x) as [e2 |]
  end; mrun; fields; [right; eexists; split; reflexivity |].
  match goal with
  | |- context [existsb ?f ?l] => destruct (existsb f l) eqn:Hex
  end; mrun; fields; [right; eexists; split; reflexivity |].
  left. eexists. split; [reflexivity |]. split; [reflexivity |]. split; [reflexivity |].
  intros r0 Hin.
  pose proof (existsb_false_forall _ _ Hex r0 Hin) as Hr0. cbv beta in Hr0.
  cbn [withID ID Email] in *.
  apply orb_false_iff in Hr0 as [Hid Hmail].
  apply String.eqb_neq in Hid. apply String.eqb_neq in Hmail. auto.
Qed.

(** X9 -- what [Register] writes.  A run of [Register] either returns a
    user and has appended exactly that record to the users table: the email
    and the username of the request, role "user", the bcrypt hash of the
    password (never the password), a fresh id, and an email and an id that
    no earlier record has; or it returns an error and leaves the table as
    it was. *)
Theorem Register_effect (m : auth.Manager) (cost : Z) (in_ : RegisterInput.t) (w : World) :
  let r := fst (run (Register (userService m cost) in_) w) in
  let w' := snd (run (Register (userService m cost) in_) w) in
  (exists u salt,
      r = Returns (Some u, None)
      /\ users w' = users w ++ [u]
      /\ Email u = RegisterInput.Email in_
      /\ Username u = RegisterInput.Username in_
      /\ Role u = "user"
      /\ PasswordHash u = bcrypt.Hash (RegisterInput.Password in_) cost salt
      /\ (forall r0, In r0 (users w) -> Email r0 <> Email u /\ ID r0 <> ID u))
  \/ (exists e, r = Returns (None, Some e) /\ users w' = users w).
Proof.
  intros r w'.
  destruct (Register_run_cases m cost in_ w) as [(u & Hr & Hu & -> & Hfresh) | Herr].
  - left. do 2 eexists. split; [exact Hr |]. split; [exact Hu |].
    repeat (split; [reflexivity |]). exact Hfresh.
  - right. exact Herr.
Qed.

(** X10 -- [Register] keeps emails and ids unique.  If no two records of
    the users table share an email, and no two share an id, the same holds
    after any run of [Register]. *)
Theorem Register_keeps_unique (m : auth.Manager) (cost : Z) (in_ : RegisterInput.t)
    (w : World) :
  NoDup (map Email (users w)) ->
  NoDup (map ID (users w)) ->
  NoDup (map Email (users (snd (run (Register (userService m cost) in_) w))))
  /\ NoDup (map ID (users (snd (run (Register (userService m cost) in_) w)))).
Proof.
  intros Hmail Hid.
  destruct (Register_run_cases m cost in_ w) as [(u & _ & Hu & _ & Hfresh) | (e & _ & Hu)];
    rewrite Hu; [| auto].
  rewrite !map_app. cbn [map].
  split; apply NoDup_app; (split; [assumption |]); (split; [| apply NoDup_singleton]);
    intros x Hx Hx'; apply list_elem_of_In in Hx; apply in_map_iff in Hx as (r0 & <- & Hin);
    apply list_elem_of_In in Hx'; destruct Hx' as [Heq | []];
    destruct (Hfresh r0 Hin) as [Hne1 Hne2]; congruence.
Qed.

End RegisterEffect.

Section LoginRoundTrips.
Context `{!jwt.Lib auth.Claims} `{!bcrypt.Lib} {B : Type}.
Import entities services gin middleware middleware_rest.

Lemma find_app_fresh {A : Type} (f : A -> bool) (l : list A) (x : A) :
  (forall y, In y l -> f y = false) -> f x = true -> find f (l ++ [x]) = Some x.
Proof.
  intros Hl Hx. induction l as [| y l IH]; cbn [app find].
  - rewrite Hx. reflexivity.
  - rewrite (Hl y) by (left; reflexivity). apply IH.
    intros z Hz. apply Hl. right. exact Hz.
Qed.

(** X11 -- register, then log in.  With a bcrypt that accepts the password
    a hash was made from: after a [Register] that returned a user, a
    [Login] with the same email and password, the database answering,
    returns that same user and a token pair. *)
Theorem register_then_login (m : auth.Manager) (cost : Z) (reg : RegisterInput.t)
    (login : LoginInput.t) (w w1 : World) (u : User) :
  bcryptCorrect ->
  run (Register (userService m cost) reg) w = (Returns (Some u, None), w1) ->
  LoginInput.Email login = RegisterInput.Email reg ->
  LoginInput.Password login = RegisterInput.Password reg ->
  upcoming w1 = None ->
  exists pair,
    fst (run (Login (userService m cost) login) w1) = Returns (Some u, Some pair, None).
Proof.
  intros Hbcrypt Hreg Hmail Hpw Hup.
  destruct (Register_run_cases m cost reg w) as [(u' & Hr & Hu & Hrec & Hfresh) | (e & Hr & _)];
    rewrite Hreg in *; cbn [fst snd] in *; [| discriminate Hr].
  injection Hr as <-.
  assert (Hby : byEmail (LoginInput.Email login) w1 = Some u).
  { unfold byEmail. rewrite Hu. apply find_app_fresh.
    - intros y Hy. destruct (Hfresh y Hy) as [Hne _].
      apply String.eqb_neq. rewrite Hmail. rewrite Hrec in Hne. exact Hne.
    - rewrite Hrec, Hmail. apply String.eqb_refl. }
  erewrite Login_after_lookup
    by (cbn [userService repo repositories.FindByEmail repositories.NewUserRepository];
        rewrite userRepo_FindByEmail_run, Hup, Hby; reflexivity).
  cbn [repositories.isErr]. rewrite compareAndIssue_run.
  rewrite Hpw.
  assert (Hc : bcrypt.CompareHashAndPassword (PasswordHash u)
                 (RegisterInput.Password reg) = None)
    by (rewrite Hrec; cbn [PasswordHash]; apply Hbcrypt).
  rewrite Hc. eexists. reflexivity.
Qed.

(** X12 -- the access token of a login opens the gate.  For any
    repository: when [Login] returns a user and a pair, there is an expiry
    such that every request that presents the access token of the pair
    under the bearer scheme before that expiry passes [Authenticate], and
    the rest of the chain runs on a context on which [GetUserID] and
    [GetRole] return the id and the role of that user. *)
Theorem login_token_passes_gate (s : UserService) (in_ : LoginInput.t) (w w' : World)
    (u : User) (pair : TokenPair.t) :
  run (Login s in_) w = (Returns (Some u, Some pair, None), w') ->
  exists expiry,
    forall (next : Context B -> M (Context B)) (c : Context B) (scheme : string)
           (w2 : World),
      Authorization c = scheme +:+ " " +:+ TokenPair.AccessToken pair ->
      gostrings.EqualFold scheme "bearer" = true ->
      reading w2 < expiry ->
      exists c',
        run (Authenticate (jwtManager s) next c) w2 = run (next c') (tick w2)
        /\ GetUserID c' = ID u
        /\ GetRole c' = Role u.
Proof.
  intros Hlogin.
  destruct (Login_success_pair s in_ w w' u pair Hlogin) as [w1 ->].
  exists (jwt.NewNumericDate (time.Add (reading w1) (auth.accessTTL (jwtManager s)))).
  intros next c scheme w2 Hh Hs Hlt.
  exists (Set_ (Set_ c ContextKeyUserID (ID u)) ContextKeyRole (Role u)).
  split; [| destruct (identity_of_injected c (ID u) (Role u)) as (? & ? & _); auto].
  rewrite (Authenticate_bearer (jwtManager s) next c scheme _ w2 Hh Hs).
  unfold issuedPair. cbn [TokenPair.AccessToken].
  rewrite Parse_signed. unfold jwt.Validate.
  cbn [issuedClaims auth.RegisteredClaims jwt.ExpiresAt jwt.NotBefore].
  unfold time.Before. destruct (Z.ltb_spec (reading w2)
    (jwt.NewNumericDate (time.Add (reading w1) (auth.accessTTL (jwtManager s)))));
    [reflexivity | lia].
Qed.

End LoginRoundTrips.

(* ===================================================================== *)
(** ** Deleting and updating users *)
(* ===================================================================== *)

Section UserManagement.
Context `{!jwt.Lib auth.Claims} `{!bcrypt.Lib}.
Import entities repositories services services_rest repositories_rest.

Lemma filter_absent (id : string) (l : list User) :
  find (fun r => String.eqb (ID r) id) l = None ->
  List.filter (fun r => negb (String.eqb (ID r) id)) l = l
  /\ List.filter (fun r => String.eqb (ID r) id) l = [].
Proof.
  induction l as [| r l IH]; cbn [find List.filter]; [auto |].
  destruct (String.eqb (ID r) id); [discriminate |].
  intros Hl. destruct (IH Hl) as [-> ->]. auto.
Qed.

Lemma filter_present (id : string) (l : list User) (u : User) :
  find (fun r => String.eqb (ID r) id) l = Some u ->
  Z.of_nat (length (List.filter (fun r => String.eqb (ID r) id) l)) <> 0.
Proof.
  induction l as [| r l IH]; cbn [find List.filter]; [discriminate |].
  destruct (String.eqb (ID r) id); [cbn [length]; lia | exact IH].
Qed.

Lemma find_filter_same (id : string) (l : list User) :
  find (fun r => String.eqb (ID r) id)
       (List.filter (fun r => negb (String.eqb (ID r) id)) l) = None.
Proof.
  induction l as [| r l IH]; cbn [find List.filter]; [reflexivity |].
  destruct (String.eqb (ID r) id) eqn:Hr; cbn [negb find]; [exact IH |].
  rewrite Hr. exact IH.
Qed.

Lemma find_filter_other (id id' : string) (l : list User) :
  id' <> id ->
  find (fun r => String.eqb (ID r) id')
       (List.filter (fun r => negb (String.eqb (ID r) id)) l)
  = find (fun r => String.eqb (ID r) id') l.
Proof.
  intros Hne. induction l as [| r l IH]; cbn [find List.filter]; [reflexivity |].
  destruct (String.eqb (ID r) id) eqn:Hr; cbn [negb find].
  - apply String.eqb_eq in Hr.
    destruct (String.eqb (ID r) id') eqn:Hr'; [| exact IH].
    apply String.eqb_eq in Hr'. congruence.
  - rewrite IH. reflexivity.
Qed.

(** The repository's [SoftDelete], case by case. *)
Lemma userRepo_SoftDelete_run (id : string) (w : World) :
  run (userRepo_SoftDelete id) w
  = match upcoming w with
    | Some _ => (Returns (Some ErrNotFound), set_faults (tl (faults w)) w)
    | None =>
        (Returns match byID id w with
                 | Some _ => None
                 | None => Some ErrNotFound
                 end,
         set_users (List.filter (fun r => negb (String.eqb (ID r) id)) (users w))
                   (set_faults (tl (faults w)) w))
    end.
Proof.
  unfold userRepo_SoftDelete, gormx.DeleteUser. mrun.
  destruct (upcoming w); mrun; [reflexivity |]. fields.
  unfold byID.
  destruct (find _ (users w)) as [u |] eqn:Hfind.
  - apply filter_present in Hfind. apply Z.eqb_neq in Hfind. rewrite Hfind. reflexivity.
  - apply filter_absent in Hfind as [_ ->]. reflexivity.
Qed.

Lemma SoftDelete_run (m : auth.Manager) (cost : Z) (id : string) (w : World) :
  run (services_rest.SoftDelete (userService m cost) userRepoRest id) w
  = match upcoming w with
    | Some _ => (Returns (Some ErrNotFound), set_faults (tl (faults w)) w)
    | None =>
        (Returns match byID id w with
                 | Some _ => None
                 | None => Some ErrNotFound
                 end,
         set_users (List.filter (fun r => negb (String.eqb (ID r) id)) (users w))
                   (set_faults (tl (faults w)) w))
    end.
Proof.
  unfold services_rest.SoftDelete.
  cbn [userRepoRest repositories_rest.SoftDelete].
  rewrite run_bind, userRepo_SoftDelete_run.
  destruct (upcoming w); mrun; [reflexivity |].
  destruct (byID id w); mrun; reflexivity.
Qed.

(** X13 -- deleting a user.  [SoftDelete] returns nil exactly when the
    database answered and a record has the id; in every other case,
    a failure of the database included, it returns the repository's
    not-found error and the users table is as before.  After a nil result
    no record has the id, and the lookup of every other id is unchanged. *)
Theorem SoftDelete_decides (m : auth.Manager) (cost : Z) (id : string) (w : World) :
  let r := fst (run (services_rest.SoftDelete (userService m cost) userRepoRest id) w) in
  let w' := snd (run (services_rest.SoftDelete (userService m cost) userRepoRest id) w) in
  (r = Returns None <-> upcoming w = None /\ byID id w <> None)
  /\ (r <> Returns None -> r = Returns (Some ErrNotFound) /\ users w' = users w)
  /\ (r = Returns None ->
      byID id w' = None /\ forall id', id' <> id -> byID id' w' = byID id' w).
Proof.
  intros r w'. subst r w'. rewrite SoftDelete_run.
  destruct (upcoming w) as [e |]; cbn [fst snd].
  - split; [split; [discriminate | intros [[=] _]] |].
    split; [intros _; split; reflexivity | discriminate].
  - destruct (byID id w) as [u |] eqn:Hby; cbn [fst snd]; fields.
    + split; [split; [intros _; split; [reflexivity | discriminate] | reflexivity] |].
      split; [intros Hne; contradiction Hne; reflexivity |].
      intros _. unfold byID. fields. split.
      * apply find_filter_same.
      * intros id' Hne. apply find_filter_other. exact Hne.
    + split; [split; [discriminate | intros [_ Hne]; contradiction Hne; reflexivity] |].
      split; [| discriminate].
      intros _. split; [reflexivity |].
      unfold byID in Hby. apply filter_absent in Hby as [-> _]. reflexivity.
Qed.

(** X14 -- a deleted user is gone.  After a [SoftDelete] that returned
    nil, and with the database answering, [GetByID] of the same id returns
    the repository's not-found error, and [Update] returns that error
    wrapped, recognisable with [errors.Is]. *)
Theorem deleted_user_is_gone (m : auth.Manager) (cost : Z) (id : string)
    (in_ : UpdateUserInput.t) (w w' : World) :
  run (services_rest.SoftDelete (userService m cost) userRepoRest id) w = (Returns None, w') ->
  upcoming w' = None ->
  fst (run (GetByID (userService m cost) id) w') = Returns (None, Some ErrNotFound)
  /\ exists e,
       fst (run (services_rest.Update (userService m cost) userRepoRest id in_) w')
       = Returns (None, Some e)
       /\ errors.Is e repositories_ErrNotFound = true.
Proof.
  intros Hdel Hup.
  assert (Hby : byID id w' = None).
  { rewrite SoftDelete_run in Hdel.
    destruct (upcoming w); [discriminate |].
    destruct (byID id w); [| discriminate].
    injection Hdel as <-. unfold byID. fields. apply find_filter_same. }
  unfold GetByID, services_rest.Update.
  cbn [userService repo repositories.FindByID repositories.NewUserRepository].
  rewrite run_bind, userRepo_FindByID_run, Hup, Hby. split; [reflexivity |].
  mrun. eexists. split; reflexivity.
Qed.

Lemma edited_eq (u : User) (in_ : UpdateUserInput.t) :
  (let user :=
     if negb (String.eqb (UpdateUserInput.Username in_) "")
     then withUsername u (UpdateUserInput.Username in_) else u in
   if negb (String.eqb (UpdateUserInput.Email in_) "")
   then withEmail user (UpdateUserInput.Email in_) else user)
  = edited u in_.
Proof.
  unfold edited, withUsername, withEmail. cbv zeta.
  destruct (String.eqb (UpdateUserInput.Username in_) "");
    destruct (String.eqb (UpdateUserInput.Email in_) "");
    destruct u; reflexivity.
Qed.

(** [Update] after its lookup: the not-found error wrapped, or the save of
    the edited record; the record is the zero value when the lookup
    failed. *)
Lemma Update_after_lookup (m : auth.Manager) (cost : Z) (id : string)
    (in_ : UpdateUserInput.t) (w : World) :
  let w1 := answered (EvUserFirst "id" id (firstAnswer (byID id w) w)) w in
  let save (u : User) :=
    run ('(user, err) ← userRepo_Update (edited u in_);
         match err with
         | Some err => mret (None, Some err)
         | None => mret (Some user, None)
         end) w1 in
  run (services_rest.Update (userService m cost) userRepoRest id in_) w
  = match upcoming w with
    | Some _ => save zeroUser
    | None =>
        match byID id w with
        | Some u => save u
        | None => (Returns (None, Some (Wrapf "finding user by id" ErrNotFound)), w1)
        end
    end.
Proof.
  intros w1 save. subst w1 save. unfold services_rest.Update.
  cbn [userService repo repositories.FindByID repositories.NewUserRepository
       userRepoRest repositories_rest.Update].
  rewrite run_bind, userRepo_FindByID_run.
  destruct (upcoming w) as [e |].
  - cbv beta iota. unfold deref. rewrite run_bind, run_ret. cbv beta.
    rewrite edited_eq. reflexivity.
  - destruct (byID id w) as [u |]; cbv beta iota; [| rewrite run_ret; reflexivity].
    unfold deref. rewrite run_bind, run_ret. cbv beta.
    rewrite edited_eq. reflexivity.
Qed.

(** X15 -- updating a user that does not exist.  With the database
    answering and no record under the id, [Update] returns the repository's
    not-found error wrapped with the words of the step, still recognisable
    with [errors.Is], after one lookup and without a write. *)
Theorem Update_not_found (m : auth.Manager) (cost : Z) (id : string)
    (in_ : UpdateUserInput.t) (w : World) :
  upcoming w = None ->
  byID id w = None ->
  exists e,
    run (services_rest.Update (userService m cost) userRepoRest id in_) w
    = (Returns (None, Some e),
       answered (EvUserFirst "id" id (Some (Sentinel gorm_ErrRecordNotFound))) w)
    /\ errors.Error e = "finding user by id: " +:+ errors.Error ErrNotFound
    /\ errors.Is e repositories_ErrNotFound = true.
Proof.
  intros Hup Hby. rewrite Update_after_lookup. unfold firstAnswer.
  rewrite Hup, Hby. eexists. split; [reflexivity |]. split; reflexivity.
Qed.

Lemma existsb_of_find {A : Type} (f : A -> bool) (l : list A) (x : A) :
  find f l = Some x -> existsb f l = true.
Proof.
  intros Hfind. apply find_some in Hfind as [Hin Hf].
  apply existsb_exists. eauto.
Qed.

Lemma find_map_replace (id : string) (l : list User) (u v : User) :
  find (fun r => String.eqb (ID r) id) l = Some u ->
  ID v = id ->
  find (fun r => String.eqb (ID r) id)
       (map (fun r => if String.eqb (ID r) id then v else r) l) = Some v.
Proof.
  intros Hfind Hv. induction l as [| r l IH]; cbn [find map] in *; [discriminate |].
  destruct (String.eqb (ID r) id) eqn:Hr.
  - rewrite Hv, String.eqb_refl. reflexivity.
  - rewrite Hr. apply IH. exact Hfind.
Qed.

Lemma find_map_other (id id' : string) (l : list User) (v : User) :
  ID v = id -> id' <> id ->
  find (fun r => String.eqb (ID r) id')
       (map (fun r => if String.eqb (ID r) id then v else r) l)
  = find (fun r => String.eqb (ID r) id') l.
Proof.
  intros Hv Hne. induction l as [| r l IH]; cbn [find map]; [reflexivity |].
  destruct (String.eqb (ID r) id) eqn:Hr.
  - apply String.eqb_eq in Hr.
    replace (String.eqb (ID v) id') with false
      by (symmetry; apply String.eqb_neq; congruence).
    replace (String.eqb (ID r) id') with false
      by (symmetry; apply String.eqb_neq; congruence).
    exact IH.
  - rewrite IH. reflexivity.
Qed.

Lemma answering_second (w : World) (ev : Event) :
  answering w -> upcoming (answered ev w) = None.
Proof.
  unfold answering, upcoming, answered. intros Hw. fields.
  destruct (faults w) as [| f [| f' fs]]; [reflexivity | reflexivity |].
  cbn [tl hd]. rewrite (Hw f') by (right; left; reflexivity). reflexivity.
Qed.

(** X16 -- updating an existing user.  With the database answering and a
    record under the (non-empty) id: when another record has the email the
    edit would give, [Update] returns the refusal of the database as it is
    (not the service's email-taken error) and the table is unchanged;
    otherwise it returns the edited record (the non-empty fields of the
    request over those of the record; id, password hash and role kept), the
    record under the id is the edited one from then on, and the lookup of
    every other id is unchanged. *)
Theorem Update_existing (m : auth.Manager) (cost : Z) (id : string)
    (in_ : UpdateUserInput.t) (w : World) (u : User) :
  answering w ->
  id <> "" ->
  byID id w = Some u ->
  let r := fst (run (services_rest.Update (userService m cost) userRepoRest id in_) w) in
  let w' := snd (run (services_rest.Update (userService m cost) userRepoRest id in_) w) in
  if existsb (fun r0 => negb (String.eqb (ID r0) id)
                        && String.eqb (Email r0) (Email (edited u in_))) (users w)
  then r = Returns (None, Some gorm.uniqueViolation)
       /\ errors.Is gorm.uniqueViolation services_ErrEmailTaken = false
       /\ users w' = users w
  else r = Returns (Some (edited u in_), None)
       /\ byID id w' = Some (edited u in_)
       /\ (forall id', id' <> id -> byID id' w' = byID id' w)
       /\ ID (edited u in_) = ID u
       /\ PasswordHash (edited u in_) = PasswordHash u
       /\ Role (edited u in_) = Role u.
Proof.
  intros Hw Hid Hby r w'. subst r w'.
  rewrite Update_after_lookup, (answering_upcoming w Hw), Hby.
  assert (Hu : ID u = id).
  { unfold byID in Hby. apply find_some in Hby as [_ Hu]. apply String.eqb_eq. exact Hu. }
  unfold userRepo_Update, gormx.SaveUser.
  cbn [edited ID]. rewrite Hu.
  replace (String.eqb id "") with false by (symmetry; apply String.eqb_neq; exact Hid).
  mrun. rewrite (answering_second w _ Hw). mrun.
  unfold answered. fields.
  rewrite (existsb_of_find _ _ _ Hby).
  destruct (existsb _ (users w)) eqn:Hclash; mrun; cbn [fst snd].
  - split; [reflexivity |]. split; reflexivity.
  - split; [reflexivity |]. unfold byID, answered. fields.
    split; [apply (find_map_replace id (users w) u); [exact Hby | exact Hu] |].
    split; [intros id' Hne; apply find_map_other; [exact Hu | exact Hne] |].
    split; [| split]; reflexivity.
Qed.

(** X17 -- an update after a failed lookup writes a new record.  When the
    lookup of [Update] fails in the database and the next statement goes
    through, the edit is applied to the zero-value record the repository
    returned with a nil error, and the save of a record with an empty id is
    an insert: unless the table refuses it, [Update] returns nil for the
    error and a record that was not there before, with a fresh id, the email
    and the username of the request, an empty password hash and the
    default role, and the table has it as a new row; no existing row is
    changed. *)
Theorem Update_after_failed_lookup (m : auth.Manager) (cost : Z) (id : string)
    (in_ : UpdateUserInput.t) (w : World) (msg : string) (rest : list (option string)) :
  faults w = Some msg :: None :: rest ->
  let junk := {| ID := entropy w (drawn w);
                 Email := UpdateUserInput.Email in_;
                 PasswordHash := "";
                 Username := UpdateUserInput.Username in_;
                 Role := "user" |} in
  (forall r0, In r0 (users w) -> ID r0 <> ID junk /\ Email r0 <> Email junk) ->
  fst (run (services_rest.Update (userService m cost) userRepoRest id in_) w)
  = Returns (Some junk, None)
  /\ users (snd (run (services_rest.Update (userService m cost) userRepoRest id in_) w))
     = users w ++ [junk].
Proof.
  intros Hfaults junk Hfresh.
  assert (Hup : upcoming w = Some (External msg))
    by (unfold upcoming; rewrite Hfaults; reflexivity).
  rewrite Update_after_lookup, Hup.
  assert (Hed : gormx.withDefaults (edited zeroUser in_) = withID junk "").
  { unfold gormx.withDefaults, edited, junk, withID. cbn [zeroUser Role ID Email
      PasswordHash Username String.eqb].
    destruct (String.eqb (UpdateUserInput.Username in_) "") eqn:Hn;
      destruct (String.eqb (UpdateUserInput.Email in_) "") eqn:He;
      try apply String.eqb_eq in Hn; try apply String.eqb_eq in He;
      rewrite ?Hn, ?He; reflexivity. }
  unfold userRepo_Update, gormx.SaveUser.
  cbn [edited ID zeroUser String.eqb]. rewrite Hed.
  unfold gorm.CreateUser, gorm.newUUID. cbn [withID ID String.eqb]. mrun.
  unfold answered, upcoming. fields. rewrite Hfaults. cbn [tl hd]. mrun. fields.
  replace (existsb _ (users w)) with false.
  - mrun. fields. cbn [fst snd]. fields. split; reflexivity.
  - symmetry. apply not_true_is_false. intros Hex.
    apply existsb_exists in Hex as (r0 & Hin & Hr0).
    destruct (Hfresh r0 Hin) as [Hi He]. subst junk. cbn [ID Email] in Hi, He.
    apply orb_true_iff in Hr0 as [Hr0 | Hr0]; apply String.eqb_eq in Hr0;
      cbn [withID ID Email] in Hr0; congruence.
Qed.

End UserManagement.

(* ===================================================================== *)
(** ** What an upload leaves in the bucket and in the table *)
(* ===================================================================== *)

Section UploadOutcome.
Import entities services saga upload.

(** [Create] with a file header, up to the three outside calls. *)
Lemma Create_run (client : storage.Client) (in_ : FileUploadInput) (fh : FileHeader)
    (w : World) :
  FileHeader_ in_ = Some fh ->
  run (Create (service client) in_) w
  = run ('(uploadOut, err) ← storage.Upload client
               {| storage.Key := storageKey in_ fh (reading w);
                  storage.Body := File in_;
                  storage.ContentType := contentType fh;
                  storage.Size := Size fh |};
         match err with
         | Some err => mret (None, "", Some (Wrapf "uploading attachment to S3" err))
         | None =>
             uploadOut ← deref uploadOut;
             '(att, err) ← repositories.attachmentRepo_Create
                 (withAttachmentID
                    (record client in_ fh (reading w) "") "");
             match err with
             | Some err =>
                 _ ← storage.Delete client (storageKey in_ fh (reading w));
                 mret (None, "", Some (Wrapf "saving attachment metadata" err))
             | None => mret (Some att, storage.PresignedURL uploadOut, None)
             end
         end) (tick w).
Proof.
  intros Hfh. unfold Create, service. rewrite Hfh.
  cbn [deref attRepo s3Client repositories.CreateAttachment
       repositories.NewAttachmentRepository].
  rewrite run_bind, run_ret. cbv beta iota. rewrite run_bind, run_Now. cbv beta iota.
  unfold storageKey, safeName, contentType, record, withAttachmentID, url.
  cbn [aID entities.NoteID entities.MessageID URL Name Type_ entities.Size S3Key].
  rewrite !run_bind.
  unfold storage.Upload, s3.PutObject. mrun.
  destruct (upcoming (tick w)); mrun; reflexivity.
Qed.

Ltac outside :=
  unfold storage.Upload, s3.PutObject, repositories.attachmentRepo_Create,
    gorm.CreateAttachment, gorm.newUUID, storage.Delete, s3.DeleteObject, deref.



(** X19 -- the bucket after a failed metadata write.  When the blob write
    succeeds and the database fails the write of the record, [Create]
    returns the database error wrapped and the table is unchanged; when the
    compensating delete succeeds no object is left under the key, not even
    one that was there before the call, so that a record of the table that
    has this key (an earlier upload of the same name to the same note in the
    same millisecond) is left without its blob; when the delete fails too,
    the new blob stays in the bucket with no record. *)
Theorem Create_compensated (client : storage.Client) (in_ : FileUploadInput)
    (fh : FileHeader) (w : World) (msg : string) (del : option string)
    (rest : list (option string)) :
  FileHeader_ in_ = Some fh ->
  faults w = None :: Some msg :: del :: rest ->
  let key := storageKey in_ fh (reading w) in
  let w' := snd (run (Create (service client) in_) w) in
  fst (run (Create (service client) in_) w)
  = Returns (None, "", Some (Wrapf "saving attachment metadata" (External msg)))
  /\ attachments w' = attachments w
  /\ bucket w' = match del with
                 | None => delete key (bucket w)
                 | Some _ => <[key := blob in_ fh]> (bucket w)
                 end
  /\ (del = None ->
      forall a, In a (attachments w) -> S3Key a = key ->
                In a (attachments w') /\ bucket w' !! S3Key a = None).
Proof.
  intros Hfh Hfaults key w'. subst key w'.
  rewrite (Create_run client in_ fh w Hfh). outside.
  cbn [withAttachmentID record aID String.eqb storage.Key storage.Body
       storage.ContentType storage.Size]. mrun.
  unfold upcoming. fields. rewrite Hfaults. cbn [hd tl]. mrun.
  unfold upcoming. fields. rewrite ?Hfaults. cbn [hd tl]. mrun.
  unfold upcoming. fields. rewrite ?Hfaults. cbn [hd tl].
  destruct del as [d |]; mrun; fields; cbn [fst snd]; fields.
  - split; [reflexivity |]. split; [reflexivity |]. split; [reflexivity |].
    discriminate.
  - split; [reflexivity |]. split; [reflexivity |].
    split; [apply delete_insert_eq |].
    intros _ a Hin Hkey. split; [exact Hin |].
    rewrite Hkey, delete_insert_eq. apply lookup_delete_eq.
Qed.

(** X20 -- a failed blob write.  When the object store fails the write,
    [Create] returns its error wrapped twice (the key quoted by the storage
    client, the step named by the service), recognisable as the same
    external failure, and neither the bucket nor the table changes. *)
Theorem Create_upload_failed (client : storage.Client) (in_ : FileUploadInput)
    (fh : FileHeader) (w : World) (msg : string) (rest : list (option string)) :
  FileHeader_ in_ = Some fh ->
  faults w = Some msg :: rest ->
  let key := storageKey in_ fh (reading w) in
  let w' := snd (run (Create (service client) in_) w) in
  fst (run (Create (service client) in_) w)
  = Returns (None, "",
             Some (Wrapf "uploading attachment to S3"
                     (Wrapf ("s3 PutObject " +:+ storage.quoted key) (External msg))))
  /\ bucket w' = bucket w
  /\ attachments w' = attachments w
  /\ faults w' = rest.
Proof.
  intros Hfh Hfaults key w'. subst key w'.
  rewrite (Create_run client in_ fh w Hfh). outside.
  cbn [storage.Key]. mrun.
  unfold upcoming. fields. rewrite Hfaults. cbn [hd tl]. mrun. fields.
  cbn [fst snd]. fields. rewrite ?Hfaults.
  split; [reflexivity |]. split; [reflexivity |]. split; reflexivity.
Qed.

End UploadOutcome.

(* ===================================================================== *)
(** ** The name of the blob *)
(* ===================================================================== *)

Section KeySanitisation.
Import services upload gostrings filepath.

Lemma contains_ReplaceAllSpace_space (s : string) :
  contains space (ReplaceAllSpace s) = false.
Proof.
  induction s as [| a s IH]; cbn [ReplaceAllSpace contains]; [reflexivity |].
  rewrite IH, orb_false_r.
  destruct (Ascii.eqb a space) eqn:Ha; [reflexivity |].
  rewrite Ascii.eqb_sym. exact Ha.
Qed.

Lemma contains_ReplaceAllSpace_slash (s : string) :
  contains slash (ReplaceAllSpace s) = contains slash s.
Proof.
  induction s as [| a s IH]; cbn [ReplaceAllSpace contains]; [reflexivity |].
  rewrite IH. f_equal.
  destruct (Ascii.eqb a space) eqn:Ha; [| reflexivity].
  apply Ascii.eqb_eq in Ha. subst a. reflexivity.
Qed.

Lemma contains_string_of_list (a : ascii) (l : list ascii) :
  contains a (string_of_list_ascii l) = existsb (Ascii.eqb a) l.
Proof.
  induction l as [| b l IH]; cbn [string_of_list_ascii contains existsb]; [reflexivity |].
  rewrite IH. reflexivity.
Qed.

Lemma lastElement_no_slash (l : list ascii) :
  existsb (Ascii.eqb slash) (lastElement l) = false.
Proof.
  induction l as [| a l IH]; cbn [lastElement]; [reflexivity |].
  destruct (Ascii.eqb a slash) eqn:Ha; [reflexivity |].
  cbn [existsb]. rewrite IH, orb_false_r, Ascii.eqb_sym. exact Ha.
Qed.

Lemma existsb_rev_eq {A : Type} (f : A -> bool) (l : list A) :
  existsb f (rev l) = existsb f l.
Proof.
  induction l as [| a l IH]; cbn [rev existsb]; [reflexivity |].
  rewrite existsb_app, IH. cbn [existsb]. rewrite orb_false_r. apply orb_comm.
Qed.

Lemma Base_slash (path : string) :
  contains slash (Base path) = true -> Base path = "/".
Proof.
  unfold Base. destruct (String.eqb path ""); [discriminate |]. cbv zeta.
  destruct (String.eqb (string_of_list_ascii _) ""); [reflexivity |].
  rewrite contains_string_of_list, existsb_rev_eq, lastElement_no_slash. discriminate.
Qed.

Lemma Base_nonempty (path : string) : Base path <> "".
Proof.
  unfold Base. destruct (String.eqb path ""); [discriminate |]. cbv zeta.
  destruct (String.eqb (string_of_list_ascii _) "") eqn:Hb; [discriminate |].
  apply String.eqb_neq in Hb. exact Hb.
Qed.

(** X21 -- the name of the blob.  The last part of the storage key, made
    from the file name the client sent, is never empty, has no space, and
    has no slash unless it is the single slash that [filepath.Base] returns
    for a name made of slashes only: a file name cannot move the blob to
    another note's prefix. *)
Theorem safeName_clean (fh : FileHeader) :
  safeName fh <> ""
  /\ contains space (safeName fh) = false
  /\ (contains slash (safeName fh) = true -> safeName fh = "/").
Proof.
  unfold safeName. split; [| split].
  - pose proof (Base_nonempty (Filename fh)) as Hb.
    destruct (Base (Filename fh)); [contradiction Hb; reflexivity | discriminate].
  - apply contains_ReplaceAllSpace_space.
  - rewrite contains_ReplaceAllSpace_slash. intros Hs.
    rewrite (Base_slash _ Hs). reflexivity.
Qed.

End KeySanitisation.

(* ===================================================================== *)
(** ** Pagination *)
(* ===================================================================== *)

Section PaginationBounds.
Import pagination.
Context `{!Scanner}.

Lemma wrap_small (z : Z) : minInt <= z <= maxInt -> wrap z = z.
Proof.
  unfold wrap, minInt, maxInt. intros Hz.
  rewrite Z.mod_small by lia. lia.
Qed.

Lemma wrap_int (z : Z) : minInt <= wrap z <= maxInt.
Proof.
  unfold wrap, minInt, maxInt.
  pose proof (Z.mod_pos_bound (z + 2 ^ 63) (2 ^ 64) ltac:(lia)). lia.
Qed.

Lemma intQuery_int (query : gmap string string) (key : string) (defaultVal : Z) :
  minInt <= defaultVal <= maxInt ->
  minInt <= intQuery query key defaultVal <= maxInt.
Proof.
  intros Hd. unfold intQuery. cbv zeta.
  destruct (_ =? 0); [exact Hd |].
  destruct (query !! key); [apply Sscanf_d_int | unfold minInt, maxInt; lia].
Qed.

Lemma Pagination_sizes (query : gmap string string) :
  1 <= snd (fst (Pagination query)) <= 100.
Proof.
  unfold Pagination. cbv zeta. cbn [fst snd].
  set (s := intQuery query "pageSize" 20).
  destruct (Z.ltb_spec s 1); cbn [orb]; [lia |].
  rewrite Z.gtb_ltb. destruct (Z.ltb_spec 100 s); lia.
Qed.

(** X22 -- the bounds of a page request.  Whatever the query string and
    whatever the scanner reads from it, [Pagination] returns a page of at
    least 1, a page size between 1 and 100, and an offset that is the
    product of [page - 1] and the page size in the arithmetic of [int]:
    exact, and not negative, as long as the product fits an [int]. *)
Theorem Pagination_bounds (query : gmap string string) :
  let page := fst (fst (Pagination query)) in
  let pageSize := snd (fst (Pagination query)) in
  let offset := snd (Pagination query) in
  1 <= page <= maxInt
  /\ 1 <= pageSize <= 100
  /\ minInt <= offset <= maxInt
  /\ ((page - 1) * pageSize <= maxInt -> offset = (page - 1) * pageSize /\ 0 <= offset).
Proof.
  unfold Pagination. cbv zeta. cbn [fst snd].
  pose proof (intQuery_int query "page" 1 ltac:(unfold minInt, maxInt; lia)) as Hp.
  pose proof (intQuery_int query "pageSize" 20 ltac:(unfold minInt, maxInt; lia)) as Hs.
  set (p := intQuery query "page" 1) in *.
  set (s := intQuery query "pageSize" 20) in *.
  assert (Hpage : 1 <= (if p <? 1 then 1 else p) <= maxInt).
  { destruct (Z.ltb_spec p 1); unfold maxInt in *; lia. }
  assert (Hsize : 1 <= (if (s <? 1) || (s >? 100) then 20 else s) <= 100).
  { destruct (Z.ltb_spec s 1); cbn [orb]; [lia |].
    rewrite Z.gtb_ltb. destruct (Z.ltb_spec 100 s); lia. }
  split; [exact Hpage |]. split; [exact Hsize |]. split; [apply wrap_int |].
  intros Hfit. rewrite wrap_small; [split; [reflexivity | nia] |].
  unfold minInt. split; [nia | exact Hfit].
Qed.

(** X23 -- the page count.  With the page and the page size that
    [Pagination] returns and a total that is a count (not negative, within
    [int]), [BuildMeta] does not divide by zero, and the number of pages it
    reports is the least number of pages of that size that hold the total. *)
Theorem BuildMeta_after_Pagination (query : gmap string string) (total : Z) :
  0 <= total <= maxInt ->
  let page := fst (fst (Pagination query)) in
  let pageSize := snd (fst (Pagination query)) in
  exists meta,
    BuildMeta page pageSize total = Returns meta
    /\ Page meta = page
    /\ PageSize meta = pageSize
    /\ TotalItems meta = total
    /\ (TotalPages meta - 1) * pageSize < total <= TotalPages meta * pageSize.
Proof.
  intros Htotal page pageSize.
  destruct (Pagination_sizes query) as [Hlo Hhi]. fold pageSize in Hlo, Hhi.
  unfold BuildMeta.
  replace (pageSize =? 0) with false by (symmetry; apply Z.eqb_neq; lia).
  rewrite Z.quot_div_nonneg, Z.rem_mod_nonneg by lia.
  pose proof (Z.div_mod total pageSize ltac:(lia)) as Hdm.
  pose proof (Z.mod_pos_bound total pageSize ltac:(lia)) as Hmod.
  assert (Hq : 0 <= total / pageSize <= total) by (split; [apply Z.div_pos; lia | nia]).
  assert (Hq1 : total mod pageSize <> 0 -> total / pageSize + 1 <= maxInt) by nia.
  rewrite (wrap_small (total / pageSize)) by (unfold minInt; lia).
  eexists. split; [reflexivity |]. cbn [Page PageSize TotalItems TotalPages].
  split; [reflexivity |]. split; [reflexivity |]. split; [reflexivity |].
  destruct (Z.eqb_spec (total mod pageSize) 0) as [Hz | Hnz]; cbn [negb].
  - nia.
  - rewrite wrap_small by (unfold minInt; lia). nia.
Qed.

End PaginationBounds.

(* ===================================================================== *)
(** ** The answers of the gate *)
(* ===================================================================== *)

Section GateAnswers.
Context `{!jwt.Lib auth.Claims} {B : Type}.
Import gin responses middleware.

(** X24 -- the answers of the gate.  Whatever the request, [Authenticate]
    either hands a context to the rest of the chain, or aborts with a 401
    whose text is one of four: header required, invalid header format,
    invalid token, invalid token type.  The text "token has expired" of its
    error switch is never the answer: [Parse] reports expiry with the
    library's error, not with the one the switch names. *)
Theorem gate_answers (m : auth.Manager) (next : Context B -> M (Context B))
    (c : Context B) (w : World) :
  (exists c' w1, run (Authenticate m next c) w = run (next c') w1)
  \/ (exists msg w',
         run (Authenticate m next c) w = (Returns (Abort (Unauthorized c msg)), w')
         /\ In msg ["authorization header required";
                    "invalid authorization header format";
                    "invalid token";
                    "invalid token type"]).
Proof.
  unfold Authenticate.
  destruct (String.eqb (Authorization c) "").
  { right. do 2 eexists. split; [reflexivity |]. cbn [In]. auto. }
  destruct (negb (Nat.eqb (length (gostrings.SplitN2 (Authorization c))) 2)
            || negb (gostrings.EqualFold (nth 0 (gostrings.SplitN2 (Authorization c)) "") "bearer")).
  { right. do 2 eexists. split; [reflexivity |]. cbn [In]. auto. }
  set (tok := nth 1 (gostrings.SplitN2 (Authorization c)) "").
  rewrite run_bind.
  destruct (Parse_cases m tok w) as [(claims & w1 & Hp) | [(w1 & Hp) | (w1 & Hp)]]; rewrite Hp.
  - cbn [deref]. rewrite run_bind, run_ret.
    destruct (negb (String.eqb (auth.TokenType_ claims) auth.AccessToken)).
    + right. do 2 eexists. split; [reflexivity |]. cbn [In]. auto.
    + left. do 2 eexists. reflexivity.
  - right. do 2 eexists. split; [reflexivity |]. cbn [In]. auto.
  - right. do 2 eexists. split; [reflexivity |]. cbn [In]. auto.
Qed.

End GateAnswers.

(* ===================================================================== *)
(** ** The properties above on the reference libraries *)
(* ===================================================================== *)

Section MoreExamples.
#[local] Existing Instance refJWT.
#[local] Existing Instance refBcrypt.
#[local] Existing Instance scanner.refScanner.
Import entities services example scenarios.

Lemma Parse_accepts_hmac_family_witness :
  let c := issuedClaims "u1" "user" auth.AccessToken t0 (auth.accessTTL manager) in
  fst (run (auth.Parse manager
              (jwt.Compact (jwt.SigningString jwt.HS512 c)
                 (jwt.HMAC jwt.HS512 (auth.secret manager) (jwt.SigningString jwt.HS512 c))))
           world)
  = Returns (Some c, None).
Proof.
  intros c.
  apply (Parse_accepts_hmac_family manager jwt.HS512 c world).
  - reflexivity.
  - intros e [= <-]. vm_compute. reflexivity.
  - intros n Hn. discriminate Hn.
Defined.

Lemma gate_identity_witness :
  let token := TokenPair.AccessToken (issuedPair manager "u1" "admin" world) in
  let c := request (B := unit) ("bearer " +:+ token) tt in
  exists c',
    run (middleware.Authenticate manager mret c) world = run (mret c') (tick world)
    /\ middleware_rest.GetUserID c' = "u1"
    /\ middleware_rest.GetRole c' = "admin"
    /\ gin.Written c' = gin.Written c
    /\ gin.Aborted c' = gin.Aborted c
    /\ forall k, k <> middleware.ContextKeyUserID -> k <> middleware.ContextKeyRole ->
                 gin.Keys c' !! k = gin.Keys c !! k.
Proof.
  intros token c.
  apply (gate_identity manager mret c "bearer" token
           (issuedClaims "u1" "admin" auth.AccessToken (reading world)
              (auth.accessTTL manager))
           world (tick world)).
  - reflexivity.
  - reflexivity.
  - vm_compute. reflexivity.
  - reflexivity.
Defined.

Lemma refresh_needs_refresh_kind_witness :
  let token := TokenPair.AccessToken (issuedPair manager "u1" "user" world) in
  run (RefreshTokens service token) world
  = (Returns (None, Some ErrInvalidRefreshToken),
     snd (run (auth.Parse manager token) world)).
Proof.
  intros token.
  apply (refresh_needs_refresh_kind service token world).
  intros claims Hparse. vm_compute in Hparse. injection Hparse as <-. discriminate.
Defined.

Lemma Register_keeps_unique_witness :
  NoDup (map Email (users (snd (run (Register service bob) world))))
  /\ NoDup (map ID (users (snd (run (Register service bob) world)))).
Proof.
  apply (Register_keeps_unique manager 12 bob world).
  - apply NoDup_cons. split; [intros Hin; inversion Hin | apply NoDup_nil; exact I].
  - apply NoDup_cons. split; [intros Hin; inversion Hin | apply NoDup_nil; exact I].
Defined.

Lemma reference_bcryptCorrect : bcryptCorrect.
Proof.
  intros password cost salt. cbn. unfold refCompare. rewrite String.eqb_refl. reflexivity.
Qed.

Lemma register_then_login_witness :
  let registered := snd (run (Register service bob) world) in
  let record :=
    {| ID := "id-1"; Email := "bob@example.com"; PasswordHash := "$2a$battery staple";
       Username := "bob"; Role := "user" |} in
  exists pair,
    fst (run (Login service bobLogin) registered) = Returns (Some record, Some pair, None).
Proof.
  intros registered record.
  apply (register_then_login manager 12 bob bobLogin world registered record).
  - exact reference_bcryptCorrect.
  - vm_compute. reflexivity.
  - reflexivity.
  - reflexivity.
  - reflexivity.
Defined.

Lemma login_token_passes_gate_witness :
  let loggedIn := snd (run (Login service annLogin) world) in
  let pair :=
    issuedPair manager "u1" "user"
      (set_trace [EvUserFirst "email" "ann@example.com" None;
                  EvBcryptCompare "$2a$correct horse" "correct horse"] world) in
  exists expiry,
    forall (next : gin.Context unit -> M (gin.Context unit)) (c : gin.Context unit)
           (scheme : string) (w2 : World),
      gin.Authorization c = scheme +:+ " " +:+ TokenPair.AccessToken pair ->
      gostrings.EqualFold scheme "bearer" = true ->
      reading w2 < expiry ->
      exists c',
        run (middleware.Authenticate manager next c) w2 = run (next c') (tick w2)
        /\ middleware_rest.GetUserID c' = "u1"
        /\ middleware_rest.GetRole c' = "user".
Proof.
  intros loggedIn pair.
  apply (login_token_passes_gate (B := unit) service annLogin world loggedIn ann pair).
  vm_compute. reflexivity.
Defined.

Lemma deleted_user_is_gone_witness :
  let w' := snd (run (services_rest.SoftDelete service repositories_rest.userRepoRest "u1")
                     world) in
  fst (run (services_rest.GetByID service "u1") w')
  = Returns (None, Some repositories.ErrNotFound)
  /\ exists e,
       fst (run (services_rest.Update service repositories_rest.userRepoRest "u1" rename) w')
       = Returns (None, Some e)
       /\ errors.Is e repositories_ErrNotFound = true.
Proof.
  intros w'.
  apply (deleted_user_is_gone manager 12 "u1" rename world w').
  - reflexivity.
  - reflexivity.
Defined.

Lemma Update_not_found_witness :
  exists e,
    run (services_rest.Update service repositories_rest.userRepoRest "u2" rename) world
    = (Returns (None, Some e),
       answered (EvUserFirst "id" "u2" (Some (Sentinel gorm_ErrRecordNotFound))) world)
    /\ errors.Error e = "finding user by id: " +:+ errors.Error repositories.ErrNotFound
    /\ errors.Is e repositories_ErrNotFound = true.
Proof.
  apply (Update_not_found manager 12 "u2" rename world).
  - reflexivity.
  - reflexivity.
Defined.

Lemma Update_existing_witness :
  let annie :=
    {| ID := "u1"; Email := "ann@example.com"; PasswordHash := "$2a$correct horse";
       Username := "annie"; Role := "user" |} in
  let r := fst (run (services_rest.Update service repositories_rest.userRepoRest "u1" rename)
                    world) in
  let w' := snd (run (services_rest.Update service repositories_rest.userRepoRest "u1" rename)
                     world) in
  r = Returns (Some annie, None)
  /\ byID "u1" w' = Some annie
  /\ (forall id', id' <> "u1" -> byID id' w' = byID id' world)
  /\ ID annie = ID ann
  /\ PasswordHash annie = PasswordHash ann
  /\ Role annie = Role ann.
Proof.
  intros annie r w'.
  refine (Update_existing manager 12 "u1" rename world ann _ _ _).
  - intros f Hin. inversion Hin.
  - discriminate.
  - reflexivity.
Defined.

Lemma Update_after_failed_lookup_witness :
  let w := set_faults [Some "connection refused"; None] world in
  let junk := {| ID := "id-0"; Email := ""; PasswordHash := ""; Username := "annie";
                 Role := "user" |} in
  fst (run (services_rest.Update service repositories_rest.userRepoRest "u1" rename) w)
  = Returns (Some junk, None)
  /\ users (snd (run (services_rest.Update service repositories_rest.userRepoRest "u1" rename)
                     w))
     = [ann; junk].
Proof.
  intros w junk.
  apply (Update_after_failed_lookup manager 12 "u1" rename w "connection refused" []).
  - reflexivity.
  - intros r0 [<- | []]. split; discriminate.
Defined.


Lemma Create_compensated_witness :
  let w := set_faults [None; Some "connection refused"; None] uploaded in
  let w' := snd (run (Create (saga.service client) upload) w) in
  fst (run (Create (saga.service client) upload) w)
  = Returns (None, "",
             Some (Wrapf "saving attachment metadata" (External "connection refused")))
  /\ attachments w' = attachments w
  /\ bucket w' = delete uploadKey (bucket w)
  /\ (@None string = None ->
      forall a, In a (attachments w) -> S3Key a = uploadKey ->
                In a (attachments w') /\ bucket w' !! S3Key a = None).
Proof.
  intros w.
  apply (Create_compensated client upload helloHeader w "connection refused" None []).
  - reflexivity.
  - reflexivity.
Defined.

Lemma Create_upload_failed_witness :
  let w := set_faults [Some "slow down"] world in
  let w' := snd (run (Create (saga.service client) upload) w) in
  fst (run (Create (saga.service client) upload) w)
  = Returns (None, "",
             Some (Wrapf "uploading attachment to S3"
                     (Wrapf ("s3 PutObject " +:+ storage.quoted uploadKey)
                        (External "slow down"))))
  /\ bucket w' = bucket w
  /\ attachments w' = attachments w
  /\ faults w' = [].
Proof.
  intros w.
  apply (Create_upload_failed client upload helloHeader w "slow down" []).
  - reflexivity.
  - reflexivity.
Defined.

Lemma BuildMeta_after_Pagination_witness :
  pagination.Pagination thirdPage = (3, 50, 100)
  /\ exists meta,
       pagination.BuildMeta (fst (fst (pagination.Pagination thirdPage)))
         (snd (fst (pagination.Pagination thirdPage))) 120
       = Returns meta
       /\ pagination.Page meta = fst (fst (pagination.Pagination thirdPage))
       /\ pagination.PageSize meta = snd (fst (pagination.Pagination thirdPage))
       /\ pagination.TotalItems meta = 120
       /\ (pagination.TotalPages meta - 1) * snd (fst (pagination.Pagination thirdPage))
          < 120
          <= pagination.TotalPages meta * snd (fst (pagination.Pagination thirdPage)).
Proof.
  split; [vm_compute; reflexivity |].
  apply (BuildMeta_after_Pagination thirdPage 120).
  unfold pagination.maxInt. lia.
Defined.

End MoreExamples.
